(** * swig-tp: the token-driven expression compiler and its built-in tags

    A shallow embedding of [src/parser.ts] (the [TokenParser] class,
    [escapeRegExp], [parseVariable], [parseTag]) and of the tags [for], [else]
    and [include],
    together with a small semantics of the JavaScript the compiler emits.

    Conventions.
    - JavaScript arrays used as stacks ([state], [filterApplyIdx], [out]) are
      lists whose LAST element is the top, as [push]/[pop] work in the source.
    - Code that can throw returns a [result].
    - The double-quote character is written [dq].
    - A string is the sequence of its UTF-16 code units, each below 256.
    - The modules [lexer], [utils] and [tags/index] are not among the sources
      at hand; what is taken from them is marked where it is introduced.
    - The class [TokenParser] declares [out], [state], [filterApplyIdx] and
      [parsers] without initialisers, its constructor does not assign them
      and nothing else in the sources does before they are read: each of
      them is an [option], [None] standing for [undefined], and reading a
      member of one that is [None] throws the TypeError JavaScript throws. *)

From Stdlib Require Import String Ascii List ZArith Bool Lia DecimalString.
Import ListNotations.
Open Scope string_scope.
Open Scope list_scope.
Set Warnings "-register-all".

Infix "^^" := String.append (at level 60, right associativity).

(** The one-character string holding a double quote. *)
Definition dq : string := String (ascii_of_nat 34) EmptyString.

(* ================================================================= *)
(** ** JavaScript values, errors and results *)

Module JS.

Inductive value : Type :=
| VUndef
| VNull
| VBool (b : bool)
| VNum (n : Z)
| VStr (s : string)
| VArr (l : list value)
| VObj (fields : list (string * value))
| VFun (name : string).

(** What a [throw] carries.  [SwigError] is what [utils.throwError] raises;
    [Unmodelled] marks JavaScript behaviour outside this embedding (coercions
    of non-numbers in arithmetic, identity of objects); no theorem counts it
    as a thrown error of the program. *)
Inductive error : Type :=
| Error (msg : string)
| TypeError (msg : string)
| ReferenceError (name : string)
| SyntaxError (msg : string)
| SwigError (msg : string) (line : nat) (file : option string)
| Unmodelled (what : string).

Inductive result (A : Type) : Type :=
| Ok (a : A)
| Throw (e : error).
Arguments Ok {A} a.
Arguments Throw {A} e.

Definition bind {A B} (r : result A) (k : A -> result B) : result B :=
  match r with
  | Ok a => k a
  | Throw e => Throw e
  end.

(** [ToBoolean]. *)
Definition truthy (v : value) : bool :=
  match v with
  | VUndef | VNull => false
  | VBool b => b
  | VNum n => negb (n =? 0)%Z
  | VStr s => negb (String.eqb s EmptyString)
  | VArr _ | VObj _ | VFun _ => true
  end.

Definition typeof (v : value) : string :=
  match v with
  | VUndef => "undefined"
  | VNull => "object"
  | VBool _ => "boolean"
  | VNum _ => "number"
  | VStr _ => "string"
  | VArr _ | VObj _ => "object"
  | VFun _ => "function"
  end.

Definition is_primitive (v : value) : bool :=
  match v with
  | VArr _ | VObj _ | VFun _ => false
  | _ => true
  end.

(** [a === b] when at least one side is a primitive: equal exactly when the
    other side is the same primitive. *)
Definition prim_eq (a b : value) : bool :=
  match a, b with
  | VUndef, VUndef => true
  | VNull, VNull => true
  | VBool x, VBool y => Bool.eqb x y
  | VNum x, VNum y => (x =? y)%Z
  | VStr x, VStr y => String.eqb x y
  | _, _ => false
  end.

(** [a === b].  Two objects compare by identity, which values do not carry. *)
Definition strict_eq (a b : value) : result bool :=
  if is_primitive a || is_primitive b then Ok (prim_eq a b)
  else Throw (Unmodelled "identity of objects").

Fixpoint assoc (k : string) (fs : list (string * value)) : option value :=
  match fs with
  | [] => None
  | (k', v) :: tl => if String.eqb k k' then Some v else assoc k tl
  end.

(** [o[k] = v] on the own properties of an object: an existing key keeps its
    place in the insertion order, a new key goes last. *)
Fixpoint assoc_set (k : string) (v : value) (fs : list (string * value))
  : list (string * value) :=
  match fs with
  | [] => [(k, v)]
  | (k', v') :: tl =>
      if String.eqb k k' then (k, v) :: tl else (k', v') :: assoc_set k v tl
  end.

(** [o.k] as a read.  Only own properties are modelled (and [length] of
    arrays and strings); reading through [undefined] or [null] throws. *)
Definition get_prop (o : value) (k : string) : result value :=
  match o with
  | VUndef => Throw (TypeError ("Cannot read properties of undefined (reading '" ^^ k ^^ "')"))
  | VNull => Throw (TypeError ("Cannot read properties of null (reading '" ^^ k ^^ "')"))
  | VObj fs => Ok (match assoc k fs with Some v => v | None => VUndef end)
  | VArr l => Ok (if String.eqb k "length" then VNum (Z.of_nat (List.length l)) else VUndef)
  | VStr s => Ok (if String.eqb k "length" then VNum (Z.of_nat (String.length s)) else VUndef)
  | _ => Ok VUndef
  end.

(** [o.k = v] in sloppy mode: throws through [undefined] or [null], is
    dropped on a primitive, and is not modelled on arrays and functions. *)
Definition set_prop (o : value) (k : string) (v : value) : result value :=
  match o with
  | VUndef => Throw (TypeError ("Cannot set properties of undefined (setting '" ^^ k ^^ "')"))
  | VNull => Throw (TypeError ("Cannot set properties of null (setting '" ^^ k ^^ "')"))
  | VObj fs => Ok (VObj (assoc_set k v fs))
  | VArr _ | VFun _ => Throw (Unmodelled "property of an array or function")
  | _ => Ok o
  end.

(** Decimal text of a natural number, as string concatenation prints it. *)
Definition string_of_nat (n : nat) : string :=
  NilZero.string_of_uint (Nat.to_uint n).

(** [String(b)] for a boolean. *)
Definition string_of_bool (b : bool) : string :=
  if b then "true" else "false".

End JS.

Import JS.

Notation "x <- c1 ;; c2" := (JS.bind c1 (fun x => c2))
  (at level 61, c1 at next level, right associativity).
Notation "' pat <- c1 ;; c2" := (JS.bind c1 (fun x => match x with pat => c2 end))
  (at level 61, pat pattern, c1 at next level, right associativity).

(* ================================================================= *)
(** ** Strings and arrays as the source uses them *)

Module Str.

(** [s.split(sep)] for a one-character separator: never empty. *)
Fixpoint split_aux (sep : ascii) (s : string) (cur : string) : list string :=
  match s with
  | EmptyString => [cur]
  | String c rest =>
      if Ascii.eqb c sep then cur :: split_aux sep rest EmptyString
      else split_aux sep rest (cur ^^ String c EmptyString)
  end.

Definition split (sep : ascii) (s : string) : list string :=
  split_aux sep s EmptyString.

(** [arr.join(sep)]. *)
Fixpoint join (sep : string) (l : list string) : string :=
  match l with
  | [] => EmptyString
  | [x] => x
  | x :: tl => x ^^ sep ^^ join sep tl
  end.

(** [s.replace(/\\/g, '\\\\')]: every backslash doubled. *)
Fixpoint double_backslashes (s : string) : string :=
  match s with
  | EmptyString => EmptyString
  | String c rest =>
      if Ascii.eqb c (ascii_of_nat 92)
      then String c (String c (double_backslashes rest))
      else String c (double_backslashes rest)
  end.

Fixpoint starts_with (p s : string) : bool :=
  match p, s with
  | EmptyString, _ => true
  | String a p', String b s' => Ascii.eqb a b && starts_with p' s'
  | _, _ => false
  end.

End Str.

Module Arr.

Definition push {A} (l : list A) (x : A) : list A := l ++ [x].

(** [arr.pop()] as the array it leaves. *)
Definition pop {A} (l : list A) : list A := removelast l.

(** [arr[arr.length - 1]]; [None] is [undefined]. *)
Fixpoint top {A} (l : list A) : option A :=
  match l with
  | [] => None
  | [x] => Some x
  | _ :: tl => top tl
  end.

(** [arr.splice(start, 0, x)]: a missing start counts as 0, a negative one
    counts from the end, one past the end inserts last. *)
Definition splice_insert {A} (l : list A) (start : option Z) (x : A) : list A :=
  let len := Z.of_nat (List.length l) in
  let s := match start with
           | None => 0%Z
           | Some z => if (z <? 0)%Z then Z.max (len + z) 0 else Z.min z len
           end in
  firstn (Z.to_nat s) l ++ x :: skipn (Z.to_nat s) l.

(** [arr[arr.length - 1] = f(arr[arr.length - 1])] on a non-empty array. *)
Fixpoint update_last {A} (f : A -> A) (l : list A) : list A :=
  match l with
  | [] => []
  | [x] => [f x]
  | x :: tl => x :: update_last f tl
  end.

Definition len {A} (l : list A) : Z := Z.of_nat (List.length l).

End Arr.

(* ================================================================= *)
(** ** Lexer tokens *)

Module Lexer.

(** Modelled from the spec: the lexer module ([lexer.ts]) is not part of the
    sources at hand.  The token kinds are the closed enumeration of the data
    model, under the names [parser.ts] uses for them ([_t.X]); the source
    spells the whitespace kind [WHITESAPCE]. *)
Inductive toktype : Type :=
| WHITESAPCE | STRING | FILTER | FILTEREMPTY | FUNCTION | FUNCTIONEMPTY
| PARENOPEN | PARENCLOSE | COMMA | VAR | NUMBER | OPERATOR
| BRACKETOPEN | BRACKETCLOSE | DOTKEY | ARRAYOPEN | CURLYOPEN | CURLYCLOSE
| COLON | COMPARATOR | LOGIC | NOT | BOOL | METHODOPEN.

Definition toktype_eq_dec (a b : toktype) : {a = b} + {a <> b}.
Proof. decide equality. Defined.

Definition teqb (a b : toktype) : bool :=
  if toktype_eq_dec a b then true else false.

(** [{type, match}]; [match] is a keyword here, hence [tmatch]. *)
Record LexerToken : Type := Tok { type : toktype; tmatch : string }.

End Lexer.

Import Lexer.

(* ================================================================= *)
(** ** utils *)

Module Utils.

(** Modelled from the spec: [utils.throwError(message, line, file)] is not in
    the sources at hand; it raises the error [{message, line, file}]. *)
Definition throwError {A} (message : string) (line : nat) (file : option string)
  : result A :=
  Throw (SwigError message line file).

End Utils.

(* ================================================================= *)
(** ** parser.ts: the TokenParser class *)

Module Parser.

Definition _reserved : list string :=
  ["break"; "case"; "catch"; "continue"; "debugger"; "default"; "delete";
   "do"; "else"; "finally"; "for"; "function"; "if"; "in"; "instanceof";
   "new"; "return"; "switch"; "this"; "throw"; "try"; "typeof"; "var";
   "void"; "while"; "with"].

(** Property names every function object answers through its prototype
    chain (a representative list; own ones are [length] and [name]). *)
Definition function_proto_props : list string :=
  ["apply"; "bind"; "call"; "constructor"; "toString"; "hasOwnProperty";
   "isPrototypeOf"; "propertyIsEnumerable"; "toLocaleString"; "valueOf";
   "__proto__"].

(** What reading [caller] or [arguments] of a built-in function throws: both
    are accessors of [Function.prototype] whose getter always throws. *)
Definition restricted_property : error :=
  TypeError "'caller', 'callee', and 'arguments' properties may not be accessed on strict mode functions or the arguments objects for calls to them".

(** [_reserved.indexOf[k]]: property [k] of the function object
    [Array.prototype.indexOf] (the method is indexed, not called). *)
Definition indexOf_prop (k : string) : result value :=
  if String.eqb k "caller" || String.eqb k "arguments" then Throw restricted_property
  else if String.eqb k "length" then Ok (VNum 1)
  else if String.eqb k "name" then Ok (VStr "indexOf")
  else if existsb (String.eqb k) function_proto_props then Ok (VFun k)
  else Ok VUndef.

(** [o.prop] for a field [o] of the object that may never have been
    assigned: reading a member of [undefined] throws. *)
Definition member {A} (o : option A) (prop : string) : result A :=
  match o with
  | Some a => Ok a
  | None => Throw (TypeError ("Cannot read properties of undefined (reading '"
                                ^^ prop ^^ "')"))
  end.

(** [o[key] = v] on [undefined]. *)
Definition setting_undefined {A} (key : string) : result A :=
  Throw (TypeError ("Cannot set properties of undefined (setting '" ^^ key ^^ "')")).

(** A filter function with its [safe] flag. *)
Record Filter : Type := mkFilter { safe : bool }.

(** The filter table, own keys bound to functions. *)
Definition Filters : Type := list (string * Filter).

Fixpoint lookup_filter (fs : Filters) (name : string) : option Filter :=
  match fs with
  | [] => None
  | (k, f) :: tl => if String.eqb name k then Some f else lookup_filter tl name
  end.

(** What the [state] array holds: token kinds, and the string [')'] that the
    FILTEREMPTY case pushes. *)
Inductive stateitem : Type :=
| StType (t : toktype)
| StString (s : string).

(** [lastState === _t.X].  The source guards some of these tests with
    [lastState &&]; the kinds it compares with are taken to have truthy codes. *)
Definition is_state (o : option stateitem) (t : toktype) : bool :=
  match o with
  | Some (StType t') => teqb t' t
  | _ => false
  end.

(** [prevTokenType === _t.X], with [prevTokenType] null when there is no
    previous token. *)
Definition prev_is (p : option LexerToken) (t : toktype) : bool :=
  match p with
  | Some tk => teqb (type tk) t
  | None => false
  end.

(** [arr[0]] inside a string concatenation: a missing element prints as
    [undefined]. *)
Definition first_or_undefined (l : list string) : string :=
  match l with
  | [] => "undefined"
  | x :: _ => x
  end.

(** [checkDot(ctx)] of [checkMatch]: the existence guard for one root. *)
Fixpoint checkDot_each (c : string) (vs : list string) (build : string) : string :=
  match vs with
  | [] => build
  | v :: tl =>
      checkDot_each (c ^^ "." ^^ v) tl
        (build ^^ " && " ^^ c ^^ "." ^^ v ^^ " !== undefiend && "
               ^^ c ^^ "." ^^ v ^^ " !== null")
  end.

Definition checkDot (mtch : list string) (ctx : string) : string :=
  let c := ctx ^^ first_or_undefined mtch in
  let build := "(typeof " ^^ c ^^ " !== " ^^ dq ^^ "undefined" ^^ dq
                          ^^ " && " ^^ c ^^ " !== null" in
  checkDot_each c (tl mtch) build ^^ ")".

Definition buildDot (mtch : list string) (ctx : string) : string :=
  "(" ^^ checkDot mtch ctx ^^ "?" ^^ ctx ^^ Str.join "." mtch
      ^^ " : " ^^ dq ^^ dq ^^ ")".

(** [checkMatch(match)]: the contextual dot-check string. *)
Definition checkMatch (mtch : list string) : string :=
  let result := "(" ^^ checkDot mtch "_ctx." ^^ " ? " ^^ buildDot mtch "_ctx."
                    ^^ " : " ^^ buildDot mtch EmptyString ^^ ")" in
  "(" ^^ result ^^ " !== null ? " ^^ result ^^ " : " ^^ dq ^^ dq ^^ " )".

(** [String(v)] for the values an escape setting takes. *)
Definition js_String (v : value) : result string :=
  match v with
  | VUndef => Ok "undefined"
  | VNull => Ok "null"
  | VBool b => Ok (string_of_bool b)
  | VNum n => Ok (NilZero.string_of_int (Z.to_int n))
  | VStr s => Ok s
  | _ => Throw (Unmodelled "String() of an object")
  end.

Section TokenParser.

(** The variables a tag's handlers close over ([firstVar], [ready], [file],
    [w], ...) travel with the session. *)
Variable L : Type.

(** [String(_t.X)]: the property key a token kind makes when it indexes an
    object.  The numbers behind the kinds belong to the lexer, which is not
    among the sources at hand; the functions that need the key take it as
    given. *)
Variable type_key : toktype -> string.

(** The fields of the class.  [out], [state] and [filterApplyIdx] are [None]
    as long as nothing was assigned to them.  [out] holds strings, and [null]
    ([None]) where a handler pushes it. *)
Record TokenParser : Type := mkTokenParser {
  out : option (list (option string));
  state : option (list stateitem);
  filterApplyIdx : option (list Z);
  filename : option string;
  line : nat;
  filters : Filters;
  escape : value;
  tokens : list LexerToken;
  isLast : bool;
  prevToken : option LexerToken;
  autoescape : value;
  locals : L
}.

Definition set_out (s : TokenParser) (o : option (list (option string)))
  : TokenParser :=
  mkTokenParser o (state s) (filterApplyIdx s) (filename s) (line s) (filters s)
    (escape s) (tokens s) (isLast s) (prevToken s) (autoescape s) (locals s).

Definition set_state (s : TokenParser) (st : option (list stateitem)) : TokenParser :=
  mkTokenParser (out s) st (filterApplyIdx s) (filename s) (line s) (filters s)
    (escape s) (tokens s) (isLast s) (prevToken s) (autoescape s) (locals s).

Definition set_filterApplyIdx (s : TokenParser) (f : option (list Z)) : TokenParser :=
  mkTokenParser (out s) (state s) f (filename s) (line s) (filters s)
    (escape s) (tokens s) (isLast s) (prevToken s) (autoescape s) (locals s).

Definition set_escape (s : TokenParser) (e : value) : TokenParser :=
  mkTokenParser (out s) (state s) (filterApplyIdx s) (filename s) (line s) (filters s)
    e (tokens s) (isLast s) (prevToken s) (autoescape s) (locals s).

Definition set_prev (s : TokenParser) (last : bool) (p : option LexerToken)
  : TokenParser :=
  mkTokenParser (out s) (state s) (filterApplyIdx s) (filename s) (line s) (filters s)
    (escape s) (tokens s) last p (autoescape s) (locals s).

Definition set_locals (s : TokenParser) (l : L) : TokenParser :=
  mkTokenParser (out s) (state s) (filterApplyIdx s) (filename s) (line s) (filters s)
    (escape s) (tokens s) (isLast s) (prevToken s) (autoescape s) l.

(** [this.out.push(x)].  The member [push] is read before the argument is
    evaluated, here and in the calls below. *)
Definition out_push_entry (s : TokenParser) (x : option string) : result TokenParser :=
  o <- member (out s) "push" ;;
  Ok (set_out s (Some (Arr.push o x))).

Definition out_push (s : TokenParser) (x : string) : result TokenParser :=
  out_push_entry s (Some x).

(** [this.state.push(x)]. *)
Definition state_push (s : TokenParser) (x : stateitem) : result TokenParser :=
  st <- member (state s) "push" ;;
  Ok (set_state s (Some (Arr.push st x))).

(** [this.state.pop()]: what it returns ([None] for [undefined]) and the
    session it leaves. *)
Definition state_pop (s : TokenParser) : result (option stateitem * TokenParser) :=
  st <- member (state s) "pop" ;;
  Ok (Arr.top st, set_state s (Some (Arr.pop st))).

(** [this.filterApplyIdx.push(this.out.length - d)]. *)
Definition fai_push_out_length (s : TokenParser) (d : Z) : result TokenParser :=
  f <- member (filterApplyIdx s) "push" ;;
  o <- member (out s) "length" ;;
  Ok (set_filterApplyIdx s (Some (Arr.push f (Arr.len o - d)%Z))).

(** [this.filterApplyIdx.pop()]. *)
Definition fai_pop (s : TokenParser) : result TokenParser :=
  f <- member (filterApplyIdx s) "pop" ;;
  Ok (set_filterApplyIdx s (Some (Arr.pop f))).

(** [this.out.splice(this.filterApplyIdx[this.filterApplyIdx.length - 1], 0, x)]. *)
Definition out_splice_at_fai (s : TokenParser) (x : string) : result TokenParser :=
  o <- member (out s) "splice" ;;
  f <- member (filterApplyIdx s) "length" ;;
  Ok (set_out s (Some (Arr.splice_insert o (Arr.top f) (Some x)))).

(** A handler set with [on(type, fn)]: called with the session as [this],
    it may throw, change the session, and answers truthy to let the default
    parsing go on. *)
Definition handler : Type := LexerToken -> TokenParser -> result (TokenParser * bool).

(** A function set under ['start'] or ['end']. *)
Definition hook : Type := TokenParser -> result TokenParser.

(** The object [this.parsers] once there is one: handlers by token kind, and
    under the keys ['*'], ['start'] and ['end'].  The field itself is an
    [option Parsers] kept beside the record of the other fields, whose type
    the handlers mention. *)
Record Parsers : Type := mkParsers {
  on_type : toktype -> option handler;
  on_star : option handler;
  on_start : option hook;
  on_end : option hook
}.

(** The constructor.  It assigns [line], [filters], [filename], [autoescape],
    [escape] and [tokens]; [isLast] has an initialiser; [parsers], [out],
    [state], [filterApplyIdx] and [prevToken] have none and are left
    unassigned.  The object is the field [parsers] with the other fields. *)
Definition new_TokenParser (toks : list LexerToken) (fs : Filters)
  (autoesc : value) (ln : nat) (file : option string) (l0 : L)
  : option Parsers * TokenParser :=
  (None, mkTokenParser None None None file ln fs autoesc toks false None autoesc l0).

(** The keys [on] is called with for a handler, and for a hook. *)
Inductive handler_key : Type := ByType (t : toktype) | Star.
Inductive hook_key : Type := AtStart | AtEnd.

Definition handler_key_text (k : handler_key) : string :=
  match k with
  | ByType t => type_key t
  | Star => "*"
  end.

Definition hook_key_text (k : hook_key) : string :=
  match k with
  | AtStart => "start"
  | AtEnd => "end"
  end.

(** [on(type, fn)], that is [this.parsers[type] = fn], for a handler: the
    table it leaves. *)
Definition on (P : option Parsers) (k : handler_key) (fn : handler)
  : result (option Parsers) :=
  match P with
  | None => setting_undefined (handler_key_text k)
  | Some tbl =>
      Ok (Some (match k with
                | ByType t =>
                    mkParsers (fun t' => if teqb t' t then Some fn else on_type tbl t')
                      (on_star tbl) (on_start tbl) (on_end tbl)
                | Star => mkParsers (on_type tbl) (Some fn) (on_start tbl) (on_end tbl)
                end))
  end.

(** [on('start', fn)] and [on('end', fn)]. *)
Definition on_hook (P : option Parsers) (k : hook_key) (fn : hook)
  : result (option Parsers) :=
  match P with
  | None => setting_undefined (hook_key_text k)
  | Some tbl =>
      Ok (Some (match k with
                | AtStart => mkParsers (on_type tbl) (on_star tbl) (Some fn) (on_end tbl)
                | AtEnd => mkParsers (on_type tbl) (on_star tbl) (on_start tbl) (Some fn)
                end))
  end.

(** [parseVar(token, match, lastState)]. *)
Definition parseVar (token : LexerToken) (mtch : string)
  (lastState : option stateitem) (s : TokenParser) : result TokenParser :=
  let matchArr := Str.split "," mtch in
  p <- indexOf_prop (first_or_undefined matchArr) ;;
  hit <- strict_eq p (VNum (-1)) ;;
  _ <- (if negb hit
        then Utils.throwError
               ("Reserved keyword " ^^ dq ^^ first_or_undefined matchArr ^^ dq
                  ^^ " attempted to be used as a variable")
               (line s) (filename s)
        else Ok tt) ;;
  s <- fai_push_out_length s 0 ;;
  if is_state lastState CURLYOPEN then
    _ <- (if (1 <? List.length matchArr)%nat
          then Utils.throwError "Unexpected dot" (line s) (filename s)
          else Ok tt) ;;
    out_push s (first_or_undefined matchArr)
  else
    out_push s (checkMatch matchArr).

(** The filter lookup both filter cases start with. *)
Definition check_filter (s : TokenParser) (mtch : string) : result Filter :=
  match lookup_filter (filters s) mtch with
  | Some f => Ok f
  | None => Utils.throwError ("Invaliad filter " ^^ dq ^^ mtch ^^ dq)
              (line s) (filename s)
  end.

Definition function_head (mtch : string) : string :=
  "((typeof _ctx." ^^ mtch ^^ " !== " ^^ dq ^^ "undefined" ^^ dq ^^ ") ? _ctx."
    ^^ mtch ^^ " : ((typeof " ^^ mtch ^^ " !== " ^^ dq ^^ "undefined" ^^ dq
    ^^ ") ? " ^^ mtch ^^ " : _fn))(".

Definition append_to (suffix : string) (x : option string) : option string :=
  match x with
  | Some a => Some (a ^^ suffix)
  | None => Some ("null" ^^ suffix)
  end.

(** The [switch (token.type)] of [parseToken]. *)
Definition parseToken_switch (token : LexerToken) (lastState : option stateitem)
  (prev : option LexerToken) (s : TokenParser) : result TokenParser :=
  let mtch := tmatch token in
  let fail {A} (msg : string) : result A :=
    Utils.throwError msg (line s) (filename s) in
  match type token with
  | WHITESAPCE => Ok s
  | STRING =>
      s <- fai_push_out_length s 0 ;;
      out_push s (Str.double_backslashes mtch)
  | NUMBER | BOOL =>
      s <- fai_push_out_length s 0 ;;
      out_push s mtch
  | FILTER =>
      f <- check_filter s mtch ;;
      let s := set_escape s (if safe f then VBool false else escape s) in
      s <- out_splice_at_fai s ("_filters[" ^^ dq ^^ mtch ^^ dq ^^ "](") ;;
      state_push s (StType (type token))
  | FILTEREMPTY =>
      f <- check_filter s mtch ;;
      let s := set_escape s (if safe f then VBool false else escape s) in
      s <- out_splice_at_fai s ("_filters[" ^^ dq ^^ mtch ^^ dq ^^ "](") ;;
      state_push s (StString ")")
  | FUNCTION =>
      s <- out_push s (function_head mtch) ;;
      let s := set_escape s (VBool false) in
      s <- state_push s (StType (type token)) ;;
      fai_push_out_length s 1
  | FUNCTIONEMPTY =>
      s <- out_push s (function_head mtch) ;;
      let s := set_escape s (VBool false) in
      o <- member (out s) "length" ;;
      let s := set_out s (Some (Arr.update_last (append_to ")") o)) in
      fai_push_out_length s 1
  | PARENOPEN =>
      s <- state_push s (StType (type token)) ;;
      f <- member (filterApplyIdx s) "length" ;;
      match f with
      | _ :: _ =>
          s <- out_splice_at_fai s "(" ;;
          s <- (if prev_is prev VAR then
                  let temp := removelast
                                (Str.split "." (match prev with
                                                | Some p => tmatch p
                                                | None => EmptyString
                                                end)) in
                  s <- out_push s (" || _fn).call" ^^ checkMatch temp) ;;
                  s <- state_push s (StType METHODOPEN) ;;
                  Ok (set_escape s (VBool false))
                else out_push s " || _fn)(") ;;
          fai_push_out_length s 3
      | [] =>
          s <- out_push s "(" ;;
          fai_push_out_length s 1
      end
  | PARENCLOSE =>
      '(temp, s) <- state_pop s ;;
      if negb (is_state temp PARENOPEN) && negb (is_state temp FUNCTION)
         && negb (is_state temp FILTER)
      then fail "Mismatched nesting state"
      else
        s <- out_push s ")" ;;
        s <- fai_pop s ;;
        if negb (is_state temp FILTER) then fai_pop s else Ok s
  | COMMA =>
      if negb (is_state lastState FUNCTION) && negb (is_state lastState FILTER)
         && negb (is_state lastState ARRAYOPEN) && negb (is_state lastState CURLYOPEN)
         && negb (is_state lastState PARENOPEN) && negb (is_state lastState COLON)
      then fail "Unexpected comma"
      else
        s <- (if is_state lastState COLON
              then '(_, s) <- state_pop s ;; Ok s
              else Ok s) ;;
        s <- out_push s ", " ;;
        fai_pop s
  | LOGIC | COMPARATOR =>
      match prev with
      | None => fail "Unexpected logic"
      | Some _ =>
          if prev_is prev COMMA || prev_is prev (type token)
             || prev_is prev BRACKETOPEN || prev_is prev CURLYOPEN
             || prev_is prev PARENOPEN || prev_is prev FUNCTION
          then fail "Unexpected logic"
          else out_push s mtch
      end
  | NOT => out_push s mtch
  | VAR => parseVar token mtch lastState s
  | BRACKETOPEN =>
      s <- (if match prev with
               | None => true
               | Some _ =>
                   negb (prev_is prev VAR) && negb (prev_is prev BRACKETCLOSE)
                   && negb (prev_is prev PARENCLOSE)
               end
            then
              s <- state_push s (StType ARRAYOPEN) ;;
              fai_push_out_length s 0
            else state_push s (StType (type token))) ;;
      out_push s "["
  | BRACKETCLOSE =>
      '(temp, s) <- state_pop s ;;
      if negb (is_state temp BRACKETOPEN) && negb (is_state temp ARRAYOPEN)
      then fail "Unexpected closing square bracket"
      else
        s <- out_push s "]" ;;
        fai_pop s
  | CURLYOPEN =>
      s <- state_push s (StType (type token)) ;;
      s <- out_push s "{" ;;
      fai_push_out_length s 1
  | COLON =>
      if negb (is_state lastState CURLYOPEN)
      then fail "Unexpected colon"
      else
        s <- state_push s (StType (type token)) ;;
        s <- out_push s ":" ;;
        fai_pop s
  | CURLYCLOSE =>
      s <- (if is_state lastState COLON
            then '(_, s) <- state_pop s ;; Ok s
            else Ok s) ;;
      '(temp, s) <- state_pop s ;;
      if negb (is_state temp CURLYOPEN)
      then fail "Unexpected closing curly brace"
      else
        s <- out_push s "}" ;;
        fai_pop s
  | DOTKEY =>
      match prev with
      | None => fail ("Unexpected key " ^^ dq ^^ mtch ^^ dq)
      | Some _ =>
          if negb (prev_is prev VAR) && negb (prev_is prev BRACKETCLOSE)
             && negb (prev_is prev DOTKEY) && negb (prev_is prev PARENCLOSE)
             && negb (prev_is prev FUNCTIONEMPTY) && negb (prev_is prev FILTEREMPTY)
             && negb (prev_is prev CURLYCLOSE)
          then fail ("Unexpected key " ^^ dq ^^ mtch ^^ dq)
          else out_push s ("." ^^ mtch)
      end
  | OPERATOR =>
      s <- out_push s (" " ^^ mtch ^^ " ") ;;
      fai_pop s
  | ARRAYOPEN | METHODOPEN => Ok s
  end.

(** What [parseToken] does once the handler, if any, let it go on:
    [lastState] and [prevToken] were read before the handler ran. *)
Definition parseToken_default (token : LexerToken) (lastState : option stateitem)
  (prev : option LexerToken) (s : TokenParser) : result TokenParser :=
  let t := type token in
  s <- (if is_state lastState FILTER
           && match prev with Some _ => true | None => false end
           && prev_is prev FILTER
           && negb (teqb t PARENCLOSE) && negb (teqb t COMMA) && negb (teqb t OPERATOR)
           && negb (teqb t FILTER) && negb (teqb t FILTEREMPTY)
        then out_push s ", " else Ok s) ;;
  s <- (if is_state lastState METHODOPEN then
          '(_, s) <- state_pop s ;;
          if negb (teqb t PARENCLOSE) then out_push s ", " else Ok s
        else Ok s) ;;
  parseToken_switch token lastState prev s.

(** [parseToken(token)] on the object with the field [parsers] as [P]: the
    handler is looked up in [this.parsers] first, then [this.state.length]
    is read. *)
Definition parseToken (P : option Parsers) (token : LexerToken) (s : TokenParser)
  : result TokenParser :=
  tbl <- member P (type_key (type token)) ;;
  let fn := match on_type tbl (type token) with
            | Some f => Some f
            | None => on_star tbl
            end in
  let prev := prevToken s in
  st <- member (state s) "length" ;;
  let lastState := Arr.top st in
  match fn with
  | Some f =>
      '(s', go) <- f token s ;;
      if negb go then Ok s' else parseToken_default token lastState prev s'
  | None => parseToken_default token lastState prev s
  end.

(** The search for the previous token in [parse]: [before] holds the tokens
    before the current one, nearest first.  Stepping back over whitespace
    reads [.type] of what precedes, also when nothing does. *)
Fixpoint skip_whitespace (before : list LexerToken) : result LexerToken :=
  match before with
  | [] => Throw (TypeError "Cannot read properties of undefined (reading 'type')")
  | t :: rest =>
      if teqb (type t) WHITESAPCE then skip_whitespace rest else Ok t
  end.

Definition find_prevToken (before : list LexerToken) : result (option LexerToken) :=
  match before with
  | [] => Ok None
  | _ :: _ => t <- skip_whitespace before ;; Ok (Some t)
  end.

(** The [utils.each(tokens, ...)] loop of [parse]. *)
Fixpoint parse_each (P : option Parsers) (before rest : list LexerToken)
  (s : TokenParser) : result TokenParser :=
  match rest with
  | [] => Ok s
  | token :: rest' =>
      p <- find_prevToken before ;;
      let s := set_prev s (match rest' with [] => true | _ => false end) p in
      s <- parseToken P token s ;;
      parse_each P (token :: before) rest' s
  end.

Definition run_hook (h : option hook) (s : TokenParser) : result TokenParser :=
  match h with
  | Some f => f s
  | None => Ok s
  end.

(** The trailing step of [parse]: the default escape as a last filter. *)
Definition parse_escape (P : option Parsers) (s : TokenParser) : result TokenParser :=
  if truthy (escape s) then
    let s := set_filterApplyIdx s (Some [0%Z]) in
    match escape s with
    | VStr _ =>
        s <- parseToken P (Tok FILTER "e") s ;;
        s <- parseToken P (Tok COMMA ",") s ;;
        a <- js_String (autoescape s) ;;
        s <- parseToken P (Tok STRING a) s ;;
        parseToken P (Tok PARENCLOSE ")") s
    | _ => parseToken P (Tok FILTEREMPTY "e") s
    end
  else Ok s.

(** [parse()] on the object with the field [parsers] as [P]; the session it
    returns holds [out], the value returned.  The first thing it does is to
    read [this.parsers.start]. *)
Definition parse (P : option Parsers) (s : TokenParser) : result TokenParser :=
  let toks := tokens s in
  tbl <- member P "start" ;;
  s <- run_hook (on_start tbl) s ;;
  s <- parse_each P [] toks s ;;
  s <- run_hook (on_end tbl) s ;;
  parse_escape P s.

End TokenParser.

Arguments out {L} _.
Arguments state {L} _.
Arguments filterApplyIdx {L} _.
Arguments filename {L} _.
Arguments line {L} _.
Arguments filters {L} _.
Arguments escape {L} _.
Arguments tokens {L} _.
Arguments isLast {L} _.
Arguments prevToken {L} _.
Arguments autoescape {L} _.
Arguments locals {L} _.
Arguments mkTokenParser {L}.
Arguments set_out {L}.
Arguments set_state {L}.
Arguments set_filterApplyIdx {L}.
Arguments set_escape {L}.
Arguments set_prev {L}.
Arguments set_locals {L}.
Arguments out_push_entry {L}.
Arguments out_push {L}.
Arguments state_push {L}.
Arguments state_pop {L}.
Arguments fai_push_out_length {L}.
Arguments fai_pop {L}.
Arguments out_splice_at_fai {L}.
Arguments on_type {L} _.
Arguments on_star {L} _.
Arguments on_start {L} _.
Arguments on_end {L} _.
Arguments mkParsers {L}.
Arguments new_TokenParser {L}.
Arguments on {L}.
Arguments on_hook {L}.
Arguments parseVar {L}.
Arguments check_filter {L}.
Arguments parseToken {L}.
Arguments parseToken_default {L}.
Arguments parseToken_switch {L}.
Arguments parse_each {L}.
Arguments parse_escape {L}.
Arguments parse {L}.
Arguments run_hook {L}.

(** [arr.join('')] on [out]: [null] joins as the empty string. *)
Definition join_out (o : list (option string)) : string :=
  Str.join EmptyString
    (map (fun x => match x with Some a => a | None => EmptyString end) o).

End Parser.

(* ================================================================= *)
(** ** The emitted expressions: reading and evaluating them

    [checkMatch] emits JavaScript text.  [JsExpr.read] reads the fragment of
    the expression grammar that text uses (identifiers, string literals,
    [null], member access, [typeof], [!==], [&&], [?:], parentheses) and
    [JsExpr.eval] evaluates it in a scope. *)

Module JsExpr.

Inductive expr : Type :=
| EId (x : string)
| EStr (s : string)
| ENull
| EDot (e : expr) (k : string)
| ETypeof (e : expr)
| ENeq (a b : expr)
| EAnd (a b : expr)
| ECond (c a b : expr).

Inductive jtok : Type :=
| TId (x : string)
| TStr (s : string)
| TLParen | TRParen | TDot | TQuestion | TColon | TNeq | TAnd.

Definition is_ident_char (c : ascii) : bool :=
  let n := nat_of_ascii c in
  ((97 <=? n) && (n <=? 122) || (65 <=? n) && (n <=? 90)
   || (48 <=? n) && (n <=? 57) || (n =? 95) || (n =? 36))%nat.

Inductive lexmode : Type :=
| MNone
| MId (acc : string)
| MStrLit (acc : string).

Definition flush (m : lexmode) (k : list jtok) : list jtok :=
  match m with
  | MId acc => TId acc :: k
  | _ => k
  end.

Definition add_char (acc : string) (c : ascii) : string :=
  acc ^^ String c EmptyString.

(** The tokens of an emitted expression; [None] on a character or an
    unfinished literal outside the fragment. *)
Fixpoint lex (s : string) (m : lexmode) : option (list jtok) :=
  match m, s with
  | MStrLit _, EmptyString => None
  | MStrLit acc, String c r =>
      if Ascii.eqb c (ascii_of_nat 34)
      then option_map (cons (TStr acc)) (lex r MNone)
      else if Ascii.eqb c (ascii_of_nat 92) then None
      else lex r (MStrLit (add_char acc c))
  | _, EmptyString => Some (flush m [])
  | _, String c r =>
      if is_ident_char c then
        lex r (MId (add_char (match m with MId acc => acc | _ => EmptyString end) c))
      else
        let emit (t : jtok) (rest : string) (next : lexmode) :=
          option_map (fun k => flush m (t :: k)) (lex rest next) in
        match nat_of_ascii c with
        | 32 => option_map (flush m) (lex r MNone)
        | 34 => option_map (flush m) (lex r (MStrLit EmptyString))
        | 40 => option_map (fun k => flush m (TLParen :: k)) (lex r MNone)
        | 41 => option_map (fun k => flush m (TRParen :: k)) (lex r MNone)
        | 46 => option_map (fun k => flush m (TDot :: k)) (lex r MNone)
        | 63 => option_map (fun k => flush m (TQuestion :: k)) (lex r MNone)
        | 58 => option_map (fun k => flush m (TColon :: k)) (lex r MNone)
        | 33 =>
            match r with
            | String c1 (String c2 r') =>
                if Ascii.eqb c1 (ascii_of_nat 61) && Ascii.eqb c2 (ascii_of_nat 61)
                then option_map (fun k => flush m (TNeq :: k)) (lex r' MNone)
                else None
            | _ => None
            end
        | 38 =>
            match r with
            | String c1 r' =>
                if Ascii.eqb c1 (ascii_of_nat 38)
                then option_map (fun k => flush m (TAnd :: k)) (lex r' MNone)
                else None
            | _ => None
            end
        | _ => None
        end
  end.

(** Precedence levels, loosest first. *)
Inductive level : Type := LCond | LAnd | LNeq | LUnary | LMember | LPrimary.

(** Recursive descent over the tokens, by precedence level. *)
Fixpoint pexpr (fuel : nat) (lvl : level) (ts : list jtok)
  : option (expr * list jtok) :=
  match fuel with
  | O => None
  | S f =>
      match lvl with
      | LCond =>
          match pexpr f LAnd ts with
          | Some (c, TQuestion :: r) =>
              match pexpr f LCond r with
              | Some (a, TColon :: r') =>
                  match pexpr f LCond r' with
                  | Some (b, r'') => Some (ECond c a b, r'')
                  | None => None
                  end
              | _ => None
              end
          | other => other
          end
      | LAnd =>
          match pexpr f LNeq ts with
          | Some (a0, r0) =>
              (fix more (n : nat) (a : expr) (r : list jtok) {struct n} :=
                 match n, r with
                 | S n', TAnd :: r1 =>
                     match pexpr f LNeq r1 with
                     | Some (b, r2) => more n' (EAnd a b) r2
                     | None => None
                     end
                 | O, TAnd :: _ => None
                 | _, _ => Some (a, r)
                 end) f a0 r0
          | None => None
          end
      | LNeq =>
          match pexpr f LUnary ts with
          | Some (a0, r0) =>
              (fix more (n : nat) (a : expr) (r : list jtok) {struct n} :=
                 match n, r with
                 | S n', TNeq :: r1 =>
                     match pexpr f LUnary r1 with
                     | Some (b, r2) => more n' (ENeq a b) r2
                     | None => None
                     end
                 | O, TNeq :: _ => None
                 | _, _ => Some (a, r)
                 end) f a0 r0
          | None => None
          end
      | LUnary =>
          match ts with
          | TId "typeof" :: r =>
              match pexpr f LUnary r with
              | Some (e, r') => Some (ETypeof e, r')
              | None => None
              end
          | _ => pexpr f LMember ts
          end
      | LMember =>
          match pexpr f LPrimary ts with
          | Some (a0, r0) =>
              (fix more (n : nat) (a : expr) (r : list jtok) {struct n} :=
                 match n, r with
                 | S n', TDot :: TId k :: r1 => more n' (EDot a k) r1
                 | _, TDot :: _ => None
                 | _, _ => Some (a, r)
                 end) f a0 r0
          | None => None
          end
      | LPrimary =>
          match ts with
          | TId "null" :: r => Some (ENull, r)
          | TId x :: r => Some (EId x, r)
          | TStr s :: r => Some (EStr s, r)
          | TLParen :: r =>
              match pexpr f LCond r with
              | Some (e, TRParen :: r') => Some (e, r')
              | _ => None
              end
          | _ => None
          end
      end
  end.

(** The expression a piece of emitted text denotes, when it is one. *)
Definition read (code : string) : option expr :=
  match lex code MNone with
  | Some ts =>
      match pexpr (6 * List.length ts + 6) LCond ts with
      | Some (e, []) => Some e
      | _ => None
      end
  | None => None
  end.

(** The scope an expression runs in: the bindings bare identifiers see,
    [_ctx] among them. *)
Definition scope : Type := list (string * value).

Fixpoint eval (env : scope) (e : expr) : result value :=
  match e with
  | EId x =>
      match assoc x env with
      | Some v => Ok v
      | None => Throw (ReferenceError x)
      end
  | EStr s => Ok (VStr s)
  | ENull => Ok VNull
  | EDot a k => v <- eval env a ;; get_prop v k
  | ETypeof a =>
      match a with
      | EId x =>
          match assoc x env with
          | Some v => Ok (VStr (typeof v))
          | None => Ok (VStr "undefined")
          end
      | _ => v <- eval env a ;; Ok (VStr (typeof v))
      end
  | ENeq a b =>
      va <- eval env a ;; vb <- eval env b ;;
      same <- strict_eq va vb ;; Ok (VBool (negb same))
  | EAnd a b =>
      va <- eval env a ;; if truthy va then eval env b else Ok va
  | ECond c a b =>
      vc <- eval env c ;; if truthy vc then eval env a else eval env b
  end.

(** Running emitted text: text that is no expression fails when the
    template function is built. *)
Definition run (env : scope) (code : string) : result value :=
  match read code with
  | Some e => eval env e
  | None => Throw (SyntaxError code)
  end.

End JsExpr.

(* ================================================================= *)
(** ** The tag protocol *)

Module Tags.

Import Parser.

(** [opts]: the fields the sources at hand read. *)
Record SwigOptions : Type := mkOptions {
  opt_autoescape : value;
  opt_filename : option string
}.

(** A record of the open-block stack, as [parseTag] returns it; [args] is
    the parser's [out], [None] when that was never assigned. *)
Record TagToken : Type := mkTagToken {
  block : bool;
  args : option (list (option string));
  ends : bool;
  name : string
}.

(** The values [parseTag] passes to a tag's [parse], by position:
    [tag.parse(chunks[1], line, parser, _t, stack, opts, swig)].
    A tag function binds its own parameter names to them in order. *)
Inductive arg : Type :=
| AUndef
| AStr (s : string)
| ANum (n : nat)
| AParser
| ATypes
| AStack (st : list TagToken)
| AOpts (o : SwigOptions)
| ASwig.

(** [a.length].  The token-kind table [_t], the parser, [opts] and [swig]
    have no member of that name. *)
Definition arg_length (a : arg) : result value :=
  match a with
  | AUndef => Throw (TypeError "Cannot read properties of undefined (reading 'length')")
  | AStr s => Ok (VNum (Z.of_nat (String.length s)))
  | AStack st => Ok (VNum (Z.of_nat (List.length st)))
  | _ => Ok VUndef
  end.

(** [a.filename]. *)
Definition arg_filename (a : arg) : result value :=
  match a with
  | AUndef => Throw (TypeError "Cannot read properties of undefined (reading 'filename')")
  | AOpts o => Ok (match opt_filename o with Some f => VStr f | None => VUndef end)
  | _ => Ok VUndef
  end.

(** [a] inside a string concatenation. *)
Definition arg_text (a : arg) : string :=
  match a with
  | AUndef => "undefined"
  | AStr s => s
  | ANum n => string_of_nat n
  | _ => "[object Object]"
  end.

(** A tag of the tag table.  Its [parse] gets the positional arguments and,
    for the parser among them, the field [parsers] of that object, on which
    it calls [on]; it gives the table it leaves and its answer, truthy to
    accept.  [tag_locals] is the type of the variables the handlers close
    over and [tag_vars] what they hold when [parse] declares them. *)
Record Tag : Type := mkTag {
  tag_locals : Type;
  tag_vars : tag_locals;
  tag_parse : arg -> arg -> arg -> arg -> arg -> arg -> arg ->
              option (Parsers tag_locals) ->
              result (option (Parsers tag_locals) * value);
  tag_ends : bool;
  tag_block : bool
}.

Definition TagTable : Type := list (string * Tag).

Fixpoint lookup_tag (ts : TagTable) (n : string) : option Tag :=
  match ts with
  | [] => None
  | (k, t) :: tl => if String.eqb n k then Some t else lookup_tag tl n
  end.

End Tags.

(* ================================================================= *)
(** ** tags/else *)

Module ElseTag.

Import Parser Tags.

(** [compile]. *)
Definition compile : string := "} else {" ^^ String (ascii_of_nat 10) EmptyString.

(** The function [parse] hands to [parser.on('*', ...)]. *)
Definition star_handler (line : arg) : handler unit :=
  fun token _ =>
    Throw (Error (dq ^^ "else" ^^ dq ^^ " tag does not accept any tokens. Found "
                     ^^ dq ^^ tmatch token ^^ dq ^^ " on line " ^^ arg_text line ^^ ".")).

(** [stack.length && stack[stack.length - 1].name === 'if'], on whatever the
    fourth argument is. *)
Definition nested_in_if (stack : arg) : result value :=
  len <- arg_length stack ;;
  if truthy len then
    match stack with
    | AStack st =>
        Ok (VBool (match Arr.top st with
                   | Some t => String.eqb (name t) "if"
                   | None => false
                   end))
    | _ => Ok (VBool false)
    end
  else Ok len.

Section Parse.

Variable type_key : toktype -> string.

(** [parse(str, line, parser, stack)]: the call of [parser.on], then the
    nesting test. *)
Definition parse (str line parser stack : arg) (P : option (Parsers unit))
  : result (option (Parsers unit) * value) :=
  match parser with
  | AParser =>
      P <- on type_key P Star (star_handler line) ;;
      r <- nested_in_if stack ;;
      Ok (P, r)
  | _ => Throw (TypeError "parser.on is not a function")
  end.

Definition tag : Tag :=
  mkTag unit tt (fun a1 a2 a3 a4 _ _ _ => parse a1 a2 a3 a4) false false.

End Parse.

End ElseTag.

(* ================================================================= *)
(** ** tags/include *)

Module IncludeTag.

Import Parser Tags.

Definition ignore : string := "ignore".
Definition missing : string := "missing".
Definition only : string := "only".

Definition nl : string := String (ascii_of_nat 10) EmptyString.

(** The variables [file] and [w] of [parse]. *)
Record locals_t : Type := mkLocals { file : option string; w : bool }.

Definition no_file (l : locals_t) : bool :=
  match file l with
  | None => true
  | Some f => String.eqb f EmptyString
  end.

(** [this.prevToken.match]. *)
Definition prev_match (s : TokenParser locals_t) : result string :=
  match prevToken s with
  | Some p => Ok (tmatch p)
  | None => Throw (TypeError "Cannot read properties of undefined (reading 'match')")
  end.

(** The function handed to [parser.on(types.STRING, ...)]. *)
Definition on_STRING : handler locals_t :=
  fun token s =>
    if no_file (locals s) then
      let s := set_locals s (mkLocals (Some (tmatch token)) (w (locals s))) in
      s <- out_push s (tmatch token) ;;
      Ok (s, false)
    else Ok (s, true).

(** The function handed to [parser.on(types.VAR, ...)]. *)
Definition on_VAR (line : arg) : handler locals_t :=
  fun token s =>
    let m := tmatch token in
    if no_file (locals s) then
      Ok (set_locals s (mkLocals (Some m) (w (locals s))), true)
    else if negb (w (locals s)) && String.eqb m "with" then
      Ok (set_locals s (mkLocals (file (locals s)) true), false)
    else
      after_with <-
        (if w (locals s) && String.eqb m only
         then p <- prev_match s ;; Ok (negb (String.eqb p "with"))
         else Ok false) ;;
      if after_with then s <- out_push s m ;; Ok (s, false)
      else if String.eqb m ignore then Ok (s, false)
      else if String.eqb m missing then
        p <- prev_match s ;;
        if negb (String.eqb p ignore)
        then Throw (Error ("Unexpected token " ^^ dq ^^ missing ^^ dq ^^ " on line "
                             ^^ arg_text line ^^ "."))
        else s <- out_push s m ;; Ok (s, false)
      else
        p <- prev_match s ;;
        if String.eqb p ignore
        then Throw (Error ("Expected " ^^ dq ^^ missing ^^ dq ^^ " on line "
                             ^^ arg_text line ^^ " but found " ^^ dq ^^ m ^^ dq ^^ "."))
        else Ok (s, true).

(** The function handed to [parser.on('end', ...)]:
    [this.out.push(opts.filename || null)]. *)
Definition on_end (opts : arg) : hook locals_t :=
  fun s =>
    o <- member (out s) "push" ;;
    f <- arg_filename opts ;;
    Ok (set_out s
          (Some (Arr.push o
                   (match f with
                    | VStr x => if truthy f then Some x else None
                    | _ => None
                    end)))).

Section Parse.

Variable type_key : toktype -> string.

(** [parse(str, line, parser, stack, opts)]: three calls of [parser.on]. *)
Definition parse (str line parser stack opts : arg)
  (P : option (Parsers locals_t))
  : result (option (Parsers locals_t) * value) :=
  match parser with
  | AParser =>
      P <- on type_key P (ByType STRING) on_STRING ;;
      P <- on type_key P (ByType VAR) (on_VAR line) ;;
      P <- on_hook P AtEnd (on_end opts) ;;
      Ok (P, VBool true)
  | _ => Throw (TypeError "parser.on is not a function")
  end.

Definition tag : Tag :=
  mkTag locals_t (mkLocals None false)
    (fun a1 a2 a3 a4 a5 _ _ => parse a1 a2 a3 a4 a5) false false.

End Parse.

(** [x + ''] for an entry of [args]. *)
Definition text (x : option string) : string :=
  match x with
  | Some s => s
  | None => EmptyString
  end.

Fixpoint remove_first (x : string) (l : list (option string))
  : option (list (option string)) :=
  match l with
  | [] => None
  | y :: tl =>
      if match y with Some s => String.eqb s x | None => false end
      then Some tl
      else option_map (cons y) (remove_first x tl)
  end.

(** The pieces [compile] computes from [args] before it builds the text. *)
Record pieces : Type := mkPieces {
  p_file : string;
  p_parentFile : string;
  p_ignore : bool;
  p_context : string
}.

Definition compile_pieces (args : list (option string)) : pieces :=
  (* file = args.shift() *)
  let file := match args with
              | [] => "undefined"
              | Some f :: _ => f
              | None :: _ => "null"
              end in
  let args := tl args in
  (* onlyIdx = args.indexOf(only); onlyCtx = onlyIdx !== -1 ? args.splice(onlyIdx, 1) : false *)
  let '(onlyCtx, args) := match remove_first only args with
                          | Some rest => (true, rest)
                          | None => (false, args)
                          end in
  (* parentFile = (args.pop() || '').replace(/\\/g, '\\\\') *)
  let parentFile := Str.double_backslashes
                      (match Arr.top args with Some (Some p) => p | _ => EmptyString end) in
  let args := Arr.pop args in
  (* ignore = args[args.length - 1] === missing ? (args.pop()) : false *)
  let ign := match Arr.top args with
             | Some (Some m) => String.eqb m missing
             | _ => false
             end in
  let args := if ign then Arr.pop args else args in
  (* w = args.join('') *)
  let w := join_out args in
  let has_w := negb (String.eqb w EmptyString) in
  mkPieces file parentFile ign
    (if onlyCtx && has_w then w
     else if negb has_w then "_ctx"
     else "_utils.extend({}, _ctx, " ^^ w ^^ ")").

(** [compile(compiler, args)]: the emitted statement. *)
Definition compile (args : list (option string)) : string :=
  let p := compile_pieces args in
  (if p_ignore p then "  try {" ^^ nl else EmptyString)
    ^^ "_output += _swig.compileFile(" ^^ p_file p ^^ ", {"
    ^^ "resolveFrom: " ^^ dq ^^ p_parentFile p ^^ dq
    ^^ "})(" ^^ p_context p ^^ ");" ^^ nl
    ^^ (if p_ignore p then "} catch (e) {}" ^^ nl else EmptyString).

(** The statements [compile] emits, as a tree. *)
Inductive stmt : Type :=
| SInclude (file_expr parent_file context_expr : string)
| STry (body : stmt).

Definition compile_stmt (args : list (option string)) : stmt :=
  let p := compile_pieces args in
  let call := SInclude (p_file p) (p_parentFile p) (p_context p) in
  if p_ignore p then STry call else call.


(** Running the emitted statement.  [call f p c] stands for evaluating
    [_swig.compileFile(f, {resolveFrom: p})(c)]: the text the partial renders,
    or what resolving, compiling or rendering it throws.  [_output] gets the
    text appended only when the call returned. *)
Fixpoint exec (call : string -> string -> string -> result string)
  (st : stmt) (_output : string) : result string :=
  match st with
  | SInclude f p c => r <- call f p c ;; Ok (_output ^^ r)
  | STry b =>
      match exec call b _output with
      | Ok o => Ok o
      | Throw _ => Ok _output
      end
  end.

End IncludeTag.

(* ================================================================= *)
(** ** tags/for *)

Module ForTag.

Import Parser Tags.

Definition nl : string := String (ascii_of_nat 10) EmptyString.
Definition ctx : string := "_ctx.".
Definition ctxloop : string := ctx ^^ "loop".

(** The variables [firstVar] and [ready] of [parse]. *)
Record locals_t : Type := mkLocals { firstVar : bool; ready : bool }.

(** The function handed to [parser.on(types.NUMBER, ...)]. *)
Definition on_NUMBER (line : arg) : handler locals_t :=
  fun token s =>
    st <- member (state s) "length" ;;
    let lastState := Arr.top st in
    if negb (ready (locals s))
       || (negb (is_state lastState ARRAYOPEN) && negb (is_state lastState CURLYOPEN)
           && negb (is_state lastState CURLYCLOSE) && negb (is_state lastState FUNCTION)
           && negb (is_state lastState FILTER))
    then Throw (Error ("Unexpected number " ^^ dq ^^ tmatch token ^^ dq ^^ " on line "
                         ^^ arg_text line ^^ "."))
    else Ok (s, true).

(** The function handed to [parser.on(types.VAR, ...)]. *)
Definition on_VAR : handler locals_t :=
  fun token s =>
    if ready (locals s) && firstVar (locals s) then Ok (s, true)
    else
      o <- member (out s) "length" ;;
      let s := match o with
               | [] => set_locals s (mkLocals true (ready (locals s)))
               | _ :: _ => s
               end in
      s <- out_push s (tmatch token) ;;
      Ok (s, false).

(** The function handed to [parser.on(types.COMMA, ...)]. *)
Definition on_COMMA : handler locals_t :=
  fun token s =>
    if firstVar (locals s) then
      match prevToken s with
      | None => Throw (TypeError "Cannot read properties of undefined (reading 'type')")
      | Some p =>
          if teqb (type p) VAR
          then s <- out_push s (tmatch token) ;; Ok (s, false)
          else Ok (s, true)
      end
    else Ok (s, true).

(** The function handed to [parser.on(types.COMPARATOR, ...)]. *)
Definition on_COMPARATOR (line : arg) : handler locals_t :=
  fun token s =>
    if negb (String.eqb (tmatch token) "in") || negb (firstVar (locals s))
    then Throw (Error ("Unexpected token " ^^ dq ^^ tmatch token ^^ dq ^^ " on line "
                         ^^ arg_text line ^^ "."))
    else
      let s := set_locals s (mkLocals (firstVar (locals s)) true) in
      s <- fai_push_out_length s 0 ;;
      Ok (s, false).

Section Parse.

Variable type_key : toktype -> string.

(** [parse(str, line, parser)]: four calls of [parser.on]. *)
Definition parse (str line parser : arg) (P : option (Parsers locals_t))
  : result (option (Parsers locals_t) * value) :=
  match parser with
  | AParser =>
      P <- on type_key P (ByType NUMBER) (on_NUMBER line) ;;
      P <- on type_key P (ByType VAR) on_VAR ;;
      P <- on type_key P (ByType COMMA) on_COMMA ;;
      P <- on type_key P (ByType COMPARATOR) (on_COMPARATOR line) ;;
      Ok (P, VBool true)
  | _ => Throw (TypeError "parser.on is not a function")
  end.

Definition tag : Tag :=
  mkTag locals_t (mkLocals false false)
    (fun a1 a2 a3 _ _ _ _ => parse a1 a2 a3) true false.

End Parse.

(** [x] of [args] inside a string concatenation. *)
Definition text (x : option (option string)) : string :=
  match x with
  | None => "undefined"
  | Some None => "null"
  | Some (Some s) => s
  end.

Fixpoint remove_dots (s : string) : string :=
  match s with
  | EmptyString => EmptyString
  | String c r =>
      if Ascii.eqb c (ascii_of_nat 46) then remove_dots r else String c (remove_dots r)
  end.

(** The names [compile] reads off [args]: the value name, the key name and
    the text of the iterable. *)
Definition loop_names (args : list (option string)) : string * string * string :=
  let val := text (hd_error args) in
  let args := tl args in
  match args with
  | Some "," :: rest => (text (hd_error rest), val, join_out (tl rest))
  | _ => (val, "__k", join_out args)
  end.

(** [compile(compiler, args, content, ...)].  [random] is the text of
    [Math.random()] and [body] the text [compiler(content, ...)] returns. *)
Definition compile (random body : string) (args : list (option string)) : string :=
  let '(val, key, last) := loop_names args in
  let ctxloopcache := remove_dots (ctx ^^ "__loopcache" ^^ random) in
  "(function () {" ^^ nl
  ^^ "   var __l = " ^^ last ^^ ", __len = (_utils.isArray(__l) || typeof __l === "
     ^^ dq ^^ "string" ^^ dq ^^ ") ? __l.length : _utils.keys(__l).length;" ^^ nl
  ^^ "   if(!__l) { return; };" ^^ nl
  ^^ "       var " ^^ ctxloopcache ^^ " = { loop: " ^^ ctxloop ^^ ", " ^^ val ^^ ": "
     ^^ ctx ^^ val ^^ ", " ^^ key ^^ ": " ^^ ctx ^^ key ^^ " };" ^^ nl
  ^^ "   " ^^ ctxloop ^^ " = {first: false, index: 1, index0: 0, revindex: __len, revindex0: __len - 1, length: __len, last: false };" ^^ nl
  ^^ "   _utils.each(__l, function(" ^^ val ^^ ", " ^^ key ^^ ") {" ^^ nl
  ^^ "   " ^^ ctx ^^ val ^^ " = " ^^ val ^^ ";" ^^ nl
  ^^ "    " ^^ ctx ^^ key ^^ " = " ^^ key ^^ ";" ^^ nl
  ^^ "    " ^^ ctxloop ^^ ".key = " ^^ key ^^ ";" ^^ nl
  ^^ "    " ^^ ctxloop ^^ ".first = (" ^^ ctxloop ^^ ".index0 === 0);" ^^ nl
  ^^ "    " ^^ ctxloop ^^ ".last = (" ^^ ctxloop ^^ ".revindex0 === 0);" ^^ nl
  ^^ "    " ^^ body
  ^^ "    " ^^ ctxloop ^^ ".index += 1; " ^^ ctxloop ^^ ".index0 += 1; "
     ^^ ctxloop ^^ ".revindex -= 1; " ^^ ctxloop ^^ ".revindex0 -= 1;" ^^ nl
  ^^ "  });" ^^ nl
  ^^ "  " ^^ ctxloop ^^ " = " ^^ ctxloopcache ^^ ".loop;" ^^ nl
  ^^ "  " ^^ ctx ^^ val ^^ " = " ^^ ctxloopcache ^^ "." ^^ val ^^ ";" ^^ nl
  ^^ "  " ^^ ctx ^^ key ^^ " = " ^^ ctxloopcache ^^ "." ^^ key ^^ ";" ^^ nl
  ^^ "  " ^^ ctxloopcache ^^ " = undefined;" ^^ nl
  ^^ "})();" ^^ nl.

(* ----------------------------------------------------------------- *)
(** *** Running the emitted loop

    The program text above, statement by statement, on the value of the
    render context [_ctx].  Objects are values here, so a write through
    [_ctx.loop] is a write to the [loop] field of [_ctx]. *)

(** Modelled from the spec: [utils.isArray], [utils.keys] and [utils.each]
    are not in the sources at hand.  The length [__len] counts the elements
    of a sequence and the keys of a mapping. *)
Definition loop_length (l : value) : Z :=
  match l with
  | VArr xs => Z.of_nat (List.length xs)
  | VStr s => Z.of_nat (String.length s)
  | VObj fs => Z.of_nat (List.length fs)
  | _ => 0%Z
  end.

Fixpoint indexed (i : Z) (xs : list value) : list (value * value) :=
  match xs with
  | [] => []
  | x :: tl => (x, VNum i) :: indexed (i + 1) tl
  end.

(** Modelled from the spec: the pairs (value, key) [utils.each] hands to its
    callback: a sequence in index order with the index as key, a mapping in
    insertion order of its keys.  Iterating a string or a function is left
    out. *)
Definition each_entries (l : value) : result (list (value * value)) :=
  match l with
  | VArr xs => Ok (indexed 0 xs)
  | VObj fs => Ok (map (fun kv => (snd kv, VStr (fst kv))) fs)
  | VStr _ | VFun _ => Throw (Unmodelled "iteration over a string or function")
  | _ => Ok []
  end.

(** [x += d] on a number. *)
Definition add_num (v : value) (d : Z) : result value :=
  match v with
  | VNum n => Ok (VNum (n + d))
  | _ => Throw (Unmodelled "arithmetic on a non-number")
  end.

(** The render context [_ctx]: an object, held as its own properties in
    insertion order. *)
Definition context : Type := list (string * value).

(** [_ctx.k]. *)
Definition ctx_get (c : context) (k : string) : value :=
  match assoc k c with
  | Some v => v
  | None => VUndef
  end.

(** [_ctx.k = v]. *)
Definition ctx_set (c : context) (k : string) (v : value) : context :=
  assoc_set k v c.

(** [_ctx.loop.f = v]. *)
Definition set_loop_field (c : context) (f : string) (v : value) : result context :=
  l <- set_prop (ctx_get c "loop") f v ;;
  Ok (ctx_set c "loop" l).

(** [_ctx.loop.f]. *)
Definition get_loop_field (c : context) (f : string) : result value :=
  get_prop (ctx_get c "loop") f.

(** [_ctx.loop.f += d]. *)
Definition bump_loop_field (c : context) (f : string) (d : Z) : result context :=
  v <- get_loop_field c f ;;
  v' <- add_num v d ;;
  set_loop_field c f v'.

(** [_ctx.loop.f = (_ctx.loop.g === 0)]. *)
Definition flag_loop_field (c : context) (f g : string) : result context :=
  v <- get_loop_field c g ;;
  z <- strict_eq v (VNum 0) ;;
  set_loop_field c f (VBool z).

(** Words no parameter can be named, beside [_reserved]. *)
Definition more_reserved : list string :=
  ["null"; "true"; "false"; "class"; "const"; "enum"; "export"; "extends";
   "import"; "super"].

(** Names the emitted text can take as the callback's parameters: identifier
    characters, not starting with a digit, no reserved word. *)
Definition is_identifier (x : string) : bool :=
  match x with
  | EmptyString => false
  | String c _ =>
      negb ((48 <=? nat_of_ascii c) && (nat_of_ascii c <=? 57))%nat
      && forallb JsExpr.is_ident_char (list_ascii_of_string x)
      && negb (existsb (String.eqb x) (_reserved ++ more_reserved))
  end.

(** Names the model takes as loop variables: identifiers other than [_ctx]
    and [loop], than [_output], which as a parameter of the callback would
    hide the accumulator the body appends to, and than [__proto__], which
    names no own property of the context. *)
Definition plain_name (x : string) : bool :=
  negb (String.eqb x "_ctx") && negb (String.eqb x "loop")
  && negb (String.eqb x "_output") && negb (String.eqb x "__proto__").

(** The object [_ctx.loop] is set to before the first iteration. *)
Definition fresh_loop (__len : Z) : value :=
  VObj [("first", VBool false); ("index", VNum 1); ("index0", VNum 0);
        ("revindex", VNum __len); ("revindex0", VNum (__len - 1));
        ("length", VNum __len); ("last", VBool false)].

Section Render.

(** The pieces appended to [_output]. *)
Variable O : Type.

(** The emitted body [compiler(content, ...)]: it runs in the callback's
    scope (the bindings of the value and key parameters) on the context, and
    gives the context it leaves and what it appended to [_output]. *)
Definition body_t : Type := JsExpr.scope -> context -> result (context * list O).

(** One call of the callback [function(val, key) { ... }]. *)
Definition iteration (val key : string) (body : body_t) (entry : value * value)
  (c : context) : result (context * list O) :=
  (* the parameters; with one name for both, the second binds it *)
  let params : JsExpr.scope := [(key, snd entry); (val, fst entry)] in
  let arg_of (x : string) : value :=
    match assoc x params with Some v => v | None => VUndef end in
  let c := ctx_set c val (arg_of val) in
  let c := ctx_set c key (arg_of key) in
  c <- set_loop_field c "key" (arg_of key) ;;
  c <- flag_loop_field c "first" "index0" ;;
  c <- flag_loop_field c "last" "revindex0" ;;
  '(c, o) <- body params c ;;
  c <- bump_loop_field c "index" 1 ;;
  c <- bump_loop_field c "index0" 1 ;;
  c <- bump_loop_field c "revindex" (-1) ;;
  c <- bump_loop_field c "revindex0" (-1) ;;
  Ok (c, o).

(** [_utils.each(__l, function(val, key) { ... })]. *)
Fixpoint each (val key : string) (body : body_t) (entries : list (value * value))
  (c : context) : result (context * list O) :=
  match entries with
  | [] => Ok (c, [])
  | e :: rest =>
      '(c, o1) <- iteration val key body e c ;;
      '(c, o2) <- each val key body rest c ;;
      Ok (c, o1 ++ o2)
  end.

(** The emitted loop on the iterable's value [__l] and the context.
    A value or key name that is no identifier makes the emitted text
    ill-formed; the names [_ctx] and [loop] would make the callback's writes
    go through an element of the iterable, which values cannot follow, and
    the names [_output] and [__proto__] are left out as well. *)
Definition render (val key : string) (body : body_t) (__l : value) (c : context)
  : result (context * list O) :=
  if negb (is_identifier val && is_identifier key)
  then Throw (SyntaxError "loop variable")
  else if negb (plain_name val && plain_name key)
  then Throw (Unmodelled "loop variable named _ctx, loop, _output or __proto__")
  else
    let __len := loop_length __l in
    if negb (truthy __l) then Ok (c, [])
    else
      (* var cache = { loop: _ctx.loop, val: _ctx.val, key: _ctx.key };
         a variable of this call of the function, under the generated name *)
      let cache := VObj (assoc_set key (ctx_get c key)
                           (assoc_set val (ctx_get c val)
                              [("loop", ctx_get c "loop")])) in
      let c := ctx_set c "loop" (fresh_loop __len) in
      entries <- each_entries __l ;;
      '(c, o) <- each val key body entries c ;;
      r <- get_prop cache "loop" ;; let c := ctx_set c "loop" r in
      r <- get_prop cache val ;; let c := ctx_set c val r in
      r <- get_prop cache key ;; let c := ctx_set c key r in
      Ok (c, o).

End Render.

Arguments iteration {O}.
Arguments each {O}.
Arguments render {O}.

(* ----------------------------------------------------------------- *)
(** *** Templates of nested loops *)

(** A node of compiled content: an output whose text depends on the scope
    and the context and leaves the context alone, or a loop with its value
    name, key name, iterable and content. *)
Inductive node : Type :=
| NOutput (f : JsExpr.scope -> context -> result string)
| NFor (val key : string) (iter : JsExpr.scope -> context -> result value)
       (content : list node).

(** The emitted text of a node, run in a scope on the context; the content
    of a loop runs, node after node, in the callback's scope. *)
Fixpoint run_node (n : node) (sc : JsExpr.scope) (c : context)
  : result (context * list string) :=
  match n with
  | NOutput f => t <- f sc c ;; Ok (c, [t])
  | NFor val key iter content =>
      l <- iter sc c ;;
      render val key
        (fun params c' =>
           (fix run_content (ns : list node) (c0 : context)
              : result (context * list string) :=
              match ns with
              | [] => Ok (c0, [])
              | n' :: rest =>
                  '(c1, o1) <- run_node n' (params ++ sc) c0 ;;
                  '(c2, o2) <- run_content rest c1 ;;
                  Ok (c2, o1 ++ o2)
              end) content c')
        l c
  end.

Fixpoint run_nodes (ns : list node) (sc : JsExpr.scope) (c : context)
  : result (context * list string) :=
  match ns with
  | [] => Ok (c, [])
  | n :: rest =>
      '(c1, o1) <- run_node n sc c ;;
      '(c2, o2) <- run_nodes rest sc c1 ;;
      Ok (c2, o1 ++ o2)
  end.

End ForTag.

(* ================================================================= *)
(** ** parser.ts: parseVariable and parseTag *)

Module Template.

Import Parser Tags.

Definition nl : string := String (ascii_of_nat 10) EmptyString.

(** The variables of [parse] that [parseVariable] and [parseTag] read and
    write: the current escape setting, the open-block stack, the raw mark. *)
Record env : Type := mkEnv {
  cur_escape : value;
  stack : list TagToken;
  inRaw : bool
}.

(** The object [parseVariable] returns: [complie] is what its method of
    that name returns when called. *)
Record VarToken : Type := mkVarToken { complie : string }.

(** The white space of the pattern [\s] among the code units below 256. *)
Definition is_space (c : ascii) : bool :=
  let n := nat_of_ascii c in
  ((n =? 32) || (n =? 9) || (n =? 10) || (n =? 11) || (n =? 12) || (n =? 13)
   || (n =? 160))%nat.

(** [str.split(/\s+/)[0]]. *)
Fixpoint first_word (s : string) : string :=
  match s with
  | EmptyString => EmptyString
  | String c r => if is_space c then EmptyString else String c (first_word r)
  end.

(** [s.replace(/^end/, '')]. *)
Definition strip_end (s : string) : string :=
  match s with
  | String a (String b (String c r)) =>
      if Ascii.eqb a "e" && Ascii.eqb b "n" && Ascii.eqb c "d" then r else s
  | _ => s
  end.

(** [args[0]] as [parseTag] reads it for the [autoescape] tag. *)
Definition first_arg (a : option (list (option string))) : result value :=
  a <- member a "0" ;;
  Ok (match a with
      | [] => VUndef
      | None :: _ => VNull
      | Some s :: _ => VStr s
      end).

Section Parse.

Variable type_key : toktype -> string.

(** [parseVariable(str, line)].  [toks] is [lexer.read(utils.strip(str))],
    the lexer being outside the sources at hand. *)
Definition parseVariable (opts : SwigOptions) (fs : Filters) (e : env)
  (str : string) (toks : list LexerToken) (line : nat) : result VarToken :=
  let '(parsers, parser) :=
    new_TokenParser toks fs (cur_escape e) line (opt_filename opts) tt in
  (* out = parser.parse().join('') *)
  parser <- parse type_key parsers parser ;;
  o <- member (out parser) "join" ;;
  let out := join_out o in
  st <- member (state parser) "length" ;;
  match st with
  | _ :: _ =>
      Utils.throwError ("Unable to parse " ^^ dq ^^ str ^^ dq) line (opt_filename opts)
  | [] => Ok (mkVarToken ("_output +=" ^^ out ^^ ";" ^^ nl))
  end.

(** [parseTag(str, line)].  [tagName] is the first piece of
    [str.split(/\s+(.+)?/)], [chunks1] what [chunks[1]] holds after the shift
    and [toks] the tokens [lexer.read] gives for the rest.
    The result is the new state of the variables and the token returned
    ([None] where the source returns nothing). *)
Definition parseTag (tags : TagTable) (opts : SwigOptions) (fs : Filters)
  (e : env) (str tagName : string) (chunks1 : arg) (toks : list LexerToken)
  (line : nat) : result (env * option TagToken) :=
  let file := opt_filename opts in
  let closes :=
    if Str.starts_with "end" str then
      match Arr.top (stack e) with
      | Some last =>
          String.eqb (name last) (strip_end (first_word str)) && ends last
      | None => false
      end
    else false in
  if closes then
    let last_name := match Arr.top (stack e) with
                     | Some last => name last
                     | None => EmptyString
                     end in
    let e1 := if String.eqb last_name "autoescape"
              then mkEnv (opt_autoescape opts) (stack e) (inRaw e)
              else if String.eqb last_name "raw"
              then mkEnv (cur_escape e) (stack e) false
              else e in
    Ok (mkEnv (cur_escape e1) (Arr.pop (stack e1)) (inRaw e1), None)
  else if Str.starts_with "end" str && negb (inRaw e) then
    Utils.throwError ("Unexpected end of tag " ^^ strip_end str) line file
  else if inRaw e then Ok (e, None)
  else
    match lookup_tag tags tagName with
    | None => Utils.throwError ("Unexpected tag " ^^ dq ^^ str ^^ dq) line file
    | Some tag =>
        let '(parsers, parser) :=
          new_TokenParser toks fs (VBool false) line file (tag_vars tag) in
        '(parsers, accepted) <-
          tag_parse tag chunks1 (ANum line) AParser ATypes (AStack (stack e))
            (AOpts opts) ASwig parsers ;;
        if negb (truthy accepted) then
          Utils.throwError ("Unexpected tag " ^^ dq ^^ tagName ^^ dq) line file
        else
          parser <- parse type_key parsers parser ;;
          let args := out parser in
          e1 <-
            (if String.eqb tagName "autoescape" then
               a0 <- first_arg args ;;
               Ok (mkEnv (if prim_eq a0 (VStr "false") then VBool false else a0)
                     (stack e) (inRaw e))
             else if String.eqb tagName "raw" then
               Ok (mkEnv (cur_escape e) (stack e) true)
             else Ok e) ;;
          Ok (e1, Some (mkTagToken (tag_block tag) args (tag_ends tag) tagName))
    end.

(** The tags of the sources at hand. *)
Definition builtin_tags : TagTable :=
  [("for", ForTag.tag type_key); ("else", ElseTag.tag type_key);
   ("include", IncludeTag.tag type_key)].

End Parse.

End Template.


(* ================================================================= *)
(** * Notions the statements use *)

Import Parser Tags Template.


(** The message of the reserved-keyword error for a match. *)
Definition reserved_error (m : string) : string :=
  "Reserved keyword " ^^ dq ^^ first_or_undefined (Str.split "," m) ^^ dq
    ^^ " attempted to be used as a variable".

(** What reading member [prop] of a field that was never assigned throws. *)
Definition reading_undefined (prop : string) : error :=
  TypeError ("Cannot read properties of undefined (reading '" ^^ prop ^^ "')").

(** What [on] throws for the key [key] when [parsers] was never assigned. *)
Definition setting_on_undefined (key : string) : error :=
  TypeError ("Cannot set properties of undefined (setting '" ^^ key ^^ "')").

(** The tokens of [x|a|b(2)] for an operand token [x]: the filter [a] comes
    without an argument list, the filter [b] with the argument 2. *)
Definition chain_x_a_b (x : LexerToken) (a b : string) : list LexerToken :=
  [x; Tok FILTEREMPTY a; Tok FILTER b; Tok NUMBER "2"; Tok PARENCLOSE ")"].

(** A key table for the examples: the kinds numbered from 0 in the order
    of the enumeration [toktype]. *)
Definition example_keys (t : toktype) : string :=
  match t with
  | WHITESAPCE => "0" | STRING => "1" | FILTER => "2" | FILTEREMPTY => "3"
  | FUNCTION => "4" | FUNCTIONEMPTY => "5" | PARENOPEN => "6" | PARENCLOSE => "7"
  | COMMA => "8" | VAR => "9" | NUMBER => "10" | OPERATOR => "11"
  | BRACKETOPEN => "12" | BRACKETCLOSE => "13" | DOTKEY => "14" | ARRAYOPEN => "15"
  | CURLYOPEN => "16" | CURLYCLOSE => "17" | COLON => "18" | COMPARATOR => "19"
  | LOGIC => "20" | NOT => "21" | BOOL => "22" | METHODOPEN => "23"
  end.

(** The record of an open conditional tag on the open-block stack. *)
Definition open_if : TagToken := mkTagToken false (Some [Some "true"]) true "if".

(** A body keeps a binding when no run of it changes what the name reads. *)
Definition body_keeps {O} (body : ForTag.body_t O) (k : string) : Prop :=
  forall params c1 c2 o,
    body params c1 = Ok (c2, o) -> ForTag.ctx_get c2 k = ForTag.ctx_get c1 k.

(** Induction over nodes that reaches the content of loops. *)
Fixpoint node_nested_ind (P : ForTag.node -> Prop)
  (Hout : forall f, P (ForTag.NOutput f))
  (Hfor : forall val key iter content,
      Forall P content -> P (ForTag.NFor val key iter content))
  (n : ForTag.node) : P n :=
  match n with
  | ForTag.NOutput f => Hout f
  | ForTag.NFor val key iter content =>
      Hfor val key iter content
        ((fix all (ns : list ForTag.node) : Forall P ns :=
            match ns with
            | [] => Forall_nil P
            | x :: tl => Forall_cons x (node_nested_ind P Hout Hfor x) (all tl)
            end) content)
  end.

(** Two loops over the same names [x] and [__k], the inner one over the
    element the outer one binds; after the inner loop the outer content
    prints the index and the key of the outer loop. *)
Definition nested_example : ForTag.node :=
  ForTag.NFor "x" "__k" (fun _ c => Ok (ForTag.ctx_get c "items"))
    [ForTag.NFor "x" "__k" (fun _ c => Ok (ForTag.ctx_get c "x"))
       [ForTag.NOutput (fun _ c => js_String (ForTag.ctx_get c "x"))];
     ForTag.NOutput
       (fun _ c => i <- ForTag.get_loop_field c "index" ;; js_String i);
     ForTag.NOutput (fun _ c => js_String (ForTag.ctx_get c "__k"))].

(** A context for it: two sequences to loop over and an outer [x]. *)
Definition nested_context : ForTag.context :=
  [("items", VArr [VArr [VStr "a"; VStr "b"]; VArr [VStr "c"]]);
   ("x", VStr "outer")].









(* ----------------------------------------------------------------- *)
(** ** Bodies that read the context *)




(* ----------------------------------------------------------------- *)
(** ** parser.ts: escapeRegExp *)

(** The characters of the class in the pattern of [escapeRegExp]. *)
Definition regexp_special (c : ascii) : bool :=
  existsb (Ascii.eqb c) (list_ascii_of_string "-/\^$*+?.()|[]{}").

(** [escapeRegExp(str)]: [str.replace] with a pattern that carries no [g]
    flag replaces the first match alone, by a backslash and the match. *)
Fixpoint escapeRegExp (str : string) : string :=
  match str with
  | EmptyString => EmptyString
  | String c r =>
      if regexp_special c then String "\" (String c r)
      else String c (escapeRegExp r)
  end.

(** No character of the text is in the class. *)
Definition no_special (s : string) : bool :=
  forallb (fun c => negb (regexp_special c)) (list_ascii_of_string s).

(* ================================================================= *)
(** * Properties of the expression compiler *)

(* ----------------------------------------------------------------- *)
(** ** Dotted paths at render time *)

(** [parseVar] hands [checkMatch] the pieces of the match between commas, so
    a dotted path arrives as one piece. *)
Lemma parseVar_split_keeps_dots : Str.split "," "a.b" = ["a.b"].
Proof. reflexivity. Qed.

(** A one-segment path whose name is bound in the context renders its value,
    one bound in the bare scope only renders that, one bound nowhere renders
    the empty string. *)
Lemma checkMatch_single_segment :
  JsExpr.run [("_ctx", VObj [("a", VStr "hi")])] (checkMatch ["a"]) = Ok (VStr "hi")
  /\ JsExpr.run [("_ctx", VObj []); ("a", VStr "bare")] (checkMatch ["a"])
     = Ok (VStr "bare")
  /\ JsExpr.run [("_ctx", VObj [("a", VNull)])] (checkMatch ["a"])
     = Ok (VStr EmptyString)
  /\ JsExpr.run [("_ctx", VObj [])] (checkMatch ["a"]) = Ok (VStr EmptyString).
Proof. repeat split; vm_compute; reflexivity. Qed.

(** The same for every value: a defined, non-null [_ctx.a] is what the
    guard for the single segment [a] yields, and with [a] bound neither in
    the context nor in the bare scope it yields the empty string. *)
Lemma single_segment_resolves (env : JsExpr.scope) (cfs : list (string * value))
  (v : value) :
  assoc "_ctx" env = Some (VObj cfs) ->
  assoc "a" cfs = Some v ->
  v <> VUndef -> v <> VNull ->
  JsExpr.run env (checkMatch ["a"]) = Ok v.
Proof.
  intros Hctx Ha Hu Hn. unfold JsExpr.run.
  set (e := JsExpr.read (checkMatch ["a"])). vm_compute in e. subst e.
  cbn [JsExpr.eval bind]. rewrite Hctx. cbn [bind get_prop]. rewrite Ha.
  destruct v; try contradiction; reflexivity.
Qed.

Lemma single_segment_missing (env : JsExpr.scope) (cfs : list (string * value)) :
  assoc "_ctx" env = Some (VObj cfs) ->
  assoc "a" cfs = None ->
  assoc "a" env = None ->
  JsExpr.run env (checkMatch ["a"]) = Ok (VStr EmptyString).
Proof.
  intros Hctx Ha He. unfold JsExpr.run.
  set (e := JsExpr.read (checkMatch ["a"])). vm_compute in e. subst e.
  cbn [JsExpr.eval bind]. rewrite Hctx. cbn [bind get_prop]. rewrite Ha, He.
  reflexivity.
Qed.

(** Whatever the context holds under [a], as long as it is an object and
    [undefiend] is bound nowhere, the guard for the segments [a] and [b]
    throws before it can yield [_ctx.a.b]. *)
Lemma two_segment_guard_throws (env : JsExpr.scope)
  (cfs afs : list (string * value)) :
  assoc "_ctx" env = Some (VObj cfs) ->
  assoc "a" cfs = Some (VObj afs) ->
  assoc "undefiend" env = None ->
  JsExpr.run env (checkMatch ["a"; "b"]) = Throw (ReferenceError "undefiend").
Proof.
  intros Hctx Ha Hu. unfold JsExpr.run.
  set (e := JsExpr.read (checkMatch ["a"; "b"])). vm_compute in e. subst e.
  cbn [JsExpr.eval bind]. rewrite Hctx. cbn [bind get_prop]. rewrite Ha.
  cbn [bind typeof strict_eq is_primitive orb prim_eq String.eqb Ascii.eqb
         Bool.eqb negb truthy andb get_prop].
  rewrite Hu. reflexivity.
Qed.

(** With nothing under [a] in the context, the guard for the single piece
    [a.b] throws on reading [b]. *)
Lemma unsplit_path_guard_throws (env : JsExpr.scope) (cfs : list (string * value)) :
  assoc "_ctx" env = Some (VObj cfs) ->
  assoc "a" cfs = None ->
  JsExpr.run env (checkMatch ["a.b"])
  = Throw (TypeError "Cannot read properties of undefined (reading 'b')").
Proof.
  intros Hctx Ha. unfold JsExpr.run.
  set (e := JsExpr.read (checkMatch ["a.b"])). vm_compute in e. subst e.
  cbn [JsExpr.eval bind]. rewrite Hctx. cbn [bind get_prop]. rewrite Ha.
  reflexivity.
Qed.

(** C1 (code defect).  The guard [checkMatch] emits for the path [a.b] does
    not render the resolved value when both segments are defined: with
    [_ctx = {a: {b: "hi"}}] evaluating it throws a ReferenceError, the guard
    comparing with the undeclared name [undefiend].  And for the match
    [parseVar] passes on, the single piece ["a.b"], the guard reads through
    the missing [_ctx.a] and throws a TypeError on the empty context, where
    the empty string is due. *)
Theorem checkMatch_raises_at_render :
  JsExpr.run [("_ctx", VObj [("a", VObj [("b", VStr "hi")])])] (checkMatch ["a"; "b"])
  = Throw (ReferenceError "undefiend")
  /\ JsExpr.run [("_ctx", VObj [])] (checkMatch (Str.split "," "a.b"))
     = Throw (TypeError "Cannot read properties of undefined (reading 'b')").
Proof. split; vm_compute; reflexivity. Qed.


(* ----------------------------------------------------------------- *)
(** ** The reserved-keyword check *)

(** No property of the method [indexOf] that can be read is the number -1. *)
Lemma indexOf_prop_is_not_minus_one (k : string) (v : value) :
  indexOf_prop k = Ok v -> strict_eq v (VNum (-1)) = Ok false.
Proof.
  unfold indexOf_prop.
  destruct (String.eqb k "caller" || String.eqb k "arguments"); [discriminate|].
  destruct (String.eqb k "length"); [intros H; inversion H; reflexivity|].
  destruct (String.eqb k "name"); [intros H; inversion H; reflexivity|].
  destruct (existsb (String.eqb k) function_proto_props);
    intros H; inversion H; reflexivity.
Qed.


(** [parseVar] never returns: whatever the match and the session, it throws
    before it touches [filterApplyIdx] or [out]. *)
Lemma parseVar_never_returns {L} (s : TokenParser L) (token : LexerToken)
  (m : string) (lastState : option stateitem) :
  exists e, parseVar token m lastState s = Throw e.
Proof.
  unfold parseVar.
  destruct (indexOf_prop (first_or_undefined (Str.split "," m))) as [v|e] eqn:E.
  - cbn [bind]. rewrite (indexOf_prop_is_not_minus_one _ _ E). eexists. reflexivity.
  - eexists. reflexivity.
Qed.

(** On the two names whose property of the method cannot be read, what
    [parseVar] throws is the TypeError of that read. *)
Lemma parseVar_restricted_names {L} (s : TokenParser L) (token : LexerToken)
  (m : string) (lastState : option stateitem) :
  first_or_undefined (Str.split "," m) = "caller"
  \/ first_or_undefined (Str.split "," m) = "arguments" ->
  parseVar token m lastState s = Throw restricted_property.
Proof.
  intros [H|H]; unfold parseVar, indexOf_prop; rewrite H; reflexivity.
Qed.




(* ----------------------------------------------------------------- *)
(** ** The parser object as the constructor leaves it

    The constructor assigns neither [parsers] nor [out], [state] and
    [filterApplyIdx].  The methods read them first thing. *)

(** [parse()] stops at its first statement, the read of
    [this.parsers.start]. *)
Lemma parse_unassigned {L} (type_key : toktype -> string) (s : TokenParser L) :
  parse type_key None s = Throw (reading_undefined "start").
Proof. reflexivity. Qed.


(** With a handler table in place but [state] unassigned, [parseToken]
    stops at the read of [this.state.length], before the handler runs. *)
Lemma parseToken_state_unassigned {L} (type_key : toktype -> string)
  (tbl : Parsers L) (token : LexerToken) (s : TokenParser L) :
  state s = None ->
  parseToken type_key (Some tbl) token s = Throw (reading_undefined "length").
Proof. intros H. unfold parseToken. cbn [member bind]. rewrite H. reflexivity. Qed.

(** [on(type, fn)] stops at its one statement, the write to
    [this.parsers[type]]. *)
Lemma on_unassigned {L} (type_key : toktype -> string) (k : handler_key)
  (fn : handler L) :
  on type_key None k fn = Throw (setting_on_undefined (handler_key_text type_key k)).
Proof. reflexivity. Qed.

(** The constructor leaves the four fields unassigned, whatever it is
    given. *)
Lemma constructor_assigns_no_array {L} (toks : list LexerToken) (fs : Filters)
  (a : value) (ln : nat) (file : option string) (l0 : L) :
  fst (new_TokenParser toks fs a ln file l0) = None
  /\ out (snd (new_TokenParser toks fs a ln file l0)) = None
  /\ state (snd (new_TokenParser toks fs a ln file l0)) = None
  /\ filterApplyIdx (snd (new_TokenParser toks fs a ln file l0)) = None.
Proof. repeat split. Qed.

(** [parseVariable] raises the TypeError of [parse()] on every input. *)
Lemma parseVariable_unassigned (type_key : toktype -> string) (opts : SwigOptions)
  (fs : Filters) (e : env) (str : string) (toks : list LexerToken) (line : nat) :
  parseVariable type_key opts fs e str toks line
  = Throw (reading_undefined "start").
Proof. reflexivity. Qed.

(* ----------------------------------------------------------------- *)
(** ** Filters and the default escape *)

(** C3 (code defect).  No output is compiled with the default escape
    applied last: on the parser object as the constructor leaves it, with
    any tokens, filter table and escape setting, [parse()] raises a
    TypeError at its first statement, and so does [parseVariable] on every
    output, before any token is parsed and before the escape setting is
    looked at. *)
Theorem escaped_output_is_never_compiled (type_key : toktype -> string)
  (opts : SwigOptions) (fs : Filters) (e : env) (str : string)
  (toks : list LexerToken) (line : nat) :
  parse type_key
    (fst (new_TokenParser toks fs (cur_escape e) line (opt_filename opts) tt))
    (snd (new_TokenParser toks fs (cur_escape e) line (opt_filename opts) tt))
  = Throw (TypeError "Cannot read properties of undefined (reading 'start')")
  /\ parseVariable type_key opts fs e str toks line
     = Throw (TypeError "Cannot read properties of undefined (reading 'start')").
Proof. split; [apply parse_unassigned|apply parseVariable_unassigned]. Qed.

(** C4 (code defect).  The chain [x|a|b(2)] compiles to nothing: whatever
    the operand token [x], the filters [a] and [b] and the filter table,
    [parseVariable] on its tokens raises the TypeError of [parse()]. *)
Theorem filter_chain_is_never_compiled (type_key : toktype -> string)
  (opts : SwigOptions) (fs : Filters) (e : env) (str : string) (x : LexerToken)
  (a b : string) (line : nat) :
  parseVariable type_key opts fs e str (chain_x_a_b x a b) line
  = Throw (TypeError "Cannot read properties of undefined (reading 'start')").
Proof. apply parseVariable_unassigned. Qed.


(* ----------------------------------------------------------------- *)
(** ** The tags through parseTag *)





(** The nesting test of the else tag on what [parseTag] passes in fourth
    position, the token-kind table, and on an open-block stack with an open
    conditional tag on top. *)
Lemma else_nesting_test :
  ElseTag.nested_in_if ATypes = Ok VUndef
  /\ ElseTag.nested_in_if (AStack [open_if]) = Ok (VBool true).
Proof. split; reflexivity. Qed.

(** C8 (code defect).  The else tag is accepted nowhere: outside a raw
    block, whatever the open-block stack holds (an open conditional tag on
    top included) and whatever the tokens of its argument list (none
    included), [parseTag] raises the TypeError of the tag's call
    [parser.on('*', ...)], the handler table of the parser never having been
    assigned; so does the tag's [parse] on the parser as constructed.  The
    nesting test and the handler are not reached. *)
Theorem else_tag_raises_TypeError (type_key : toktype -> string)
  (opts : SwigOptions) (fs : Filters) (esc : value) (st : list TagToken)
  (chunks1 : arg) (toks : list LexerToken) (line : nat) :
  parseTag type_key (builtin_tags type_key) opts fs (mkEnv esc st false)
    "else" "else" chunks1 toks line
  = Throw (TypeError "Cannot set properties of undefined (setting '*')")
  /\ ElseTag.parse type_key chunks1 (ANum line) AParser ATypes
       (fst (new_TokenParser toks fs (VBool false) line (opt_filename opts) tt))
     = Throw (TypeError "Cannot set properties of undefined (setting '*')").
Proof. split; reflexivity. Qed.

(** Once registered, the VAR handler of the include tag takes a first
    identifier [missing] as the file reference and lets it through. *)
Lemma include_missing_first_is_file (line : arg)
  (s : TokenParser IncludeTag.locals_t) :
  IncludeTag.no_file (locals s) = true ->
  IncludeTag.on_VAR line (Tok VAR IncludeTag.missing) s
  = Ok (set_locals s (IncludeTag.mkLocals (Some IncludeTag.missing)
                        (IncludeTag.w (locals s))), true).
Proof. intros H. unfold IncludeTag.on_VAR. rewrite H. reflexivity. Qed.

(** C9 (code defect).  No include tag gets through its parse phase: outside
    a raw block, whatever follows the tag name (with or without [ignore
    missing], with [missing] after another token), [parseTag] raises the
    TypeError of the tag's first call of [parser.on], the handler table of
    the parser never having been assigned; so does the tag's [parse] on the
    parser as constructed.  No handler is registered, so no token [missing]
    is ever looked at. *)
Theorem include_tag_raises_TypeError (type_key : toktype -> string)
  (opts : SwigOptions) (fs : Filters) (esc : value) (st : list TagToken)
  (rest : string) (chunks1 : arg) (toks : list LexerToken) (line : nat) :
  parseTag type_key (builtin_tags type_key) opts fs (mkEnv esc st false)
    ("include" ^^ rest) "include" chunks1 toks line
  = Throw (TypeError ("Cannot set properties of undefined (setting '"
                        ^^ type_key STRING ^^ "')"))
  /\ IncludeTag.parse type_key chunks1 (ANum line) AParser ATypes (AStack st)
       (fst (new_TokenParser toks fs (VBool false) line (opt_filename opts)
               (IncludeTag.mkLocals None false)))
     = Throw (TypeError ("Cannot set properties of undefined (setting '"
                           ^^ type_key STRING ^^ "')")).
Proof. split; reflexivity. Qed.


(* ----------------------------------------------------------------- *)
(** ** include: the emitted statement *)

Lemma top_snoc {A} (l : list A) (x : A) : Arr.top (l ++ [x]) = Some x.
Proof.
  induction l as [|a l IH]; [reflexivity|].
  cbn. destruct (l ++ [x]) eqn:E; [destruct l; discriminate|exact IH].
Qed.

Lemma pop_snoc {A} (l : list A) (x : A) : Arr.pop (l ++ [x]) = l.
Proof. unfold Arr.pop. apply removelast_last. Qed.

Lemma top_In {A} (l : list A) (x : A) : Arr.top l = Some x -> In x l.
Proof.
  induction l as [|a l IH]; [discriminate|].
  cbn. destruct l as [|b l'].
  - intros H; inversion H; left; reflexivity.
  - intros H. right. apply IH. exact H.
Qed.

Lemma pop_In {A} (l : list A) (x : A) : In x (Arr.pop l) -> In x l.
Proof.
  unfold Arr.pop. induction l as [|a l IH]; [intros []|].
  cbn. destruct l as [|b l'].
  - intros [].
  - intros [H|H]; [left; exact H|right; apply IH; exact H].
Qed.

Lemma remove_first_In (x : string) (l r : list (option string)) (y : option string) :
  IncludeTag.remove_first x l = Some r -> In y r -> In y l.
Proof.
  revert r. induction l as [|a l IH]; intros r H; [discriminate|].
  cbn in H.
  destruct (match a with Some s => String.eqb s x | None => false end).
  - inversion H; subst. intros Hy. right. exact Hy.
  - destruct (IncludeTag.remove_first x l) as [r'|]; [|discriminate].
    inversion H; subst. intros [Hy|Hy]; [left; exact Hy|right; apply (IH r'); auto].
Qed.

Lemma remove_first_app (x : string) (l suffix : list (option string)) :
  IncludeTag.remove_first x (l ++ suffix)
  = match IncludeTag.remove_first x l with
    | Some l' => Some (l' ++ suffix)
    | None => option_map (app l) (IncludeTag.remove_first x suffix)
    end.
Proof.
  induction l as [|a l IH]; cbn.
  - destruct (IncludeTag.remove_first x suffix); reflexivity.
  - destruct (match a with Some s => String.eqb s x | None => false end);
      [reflexivity|].
    rewrite IH. destruct (IncludeTag.remove_first x l); [reflexivity|].
    destruct (IncludeTag.remove_first x suffix); reflexivity.
Qed.

(** With the mark [missing] right before the appended file path, [compile]
    takes the modifier as given. *)
Lemma modifier_last_is_seen (f parent : option string) (mid : list (option string)) :
  parent <> Some IncludeTag.only ->
  IncludeTag.p_ignore
    (IncludeTag.compile_pieces (f :: mid ++ [Some IncludeTag.missing; parent])) = true.
Proof.
  intros Hp. unfold IncludeTag.compile_pieces. cbn [tl].
  rewrite remove_first_app.
  assert (Hsuf : IncludeTag.remove_first IncludeTag.only
                   [Some IncludeTag.missing; parent] = None).
  { cbn. destruct parent as [p|]; [|reflexivity].
    destruct (String.eqb p IncludeTag.only) eqn:E; [|reflexivity].
    apply String.eqb_eq in E. subst. contradiction Hp. reflexivity. }
  rewrite Hsuf. cbn [option_map].
  destruct (IncludeTag.remove_first IncludeTag.only mid) as [mid'|];
    cbn [IncludeTag.p_ignore];
    change ([Some IncludeTag.missing; parent])
      with ([Some IncludeTag.missing] ++ [parent]);
    rewrite app_assoc, pop_snoc, top_snoc; reflexivity.
Qed.

(** Without the mark [missing] among the arguments, [compile] sees no
    modifier. *)
Lemma no_mark_no_modifier (args : list (option string)) :
  ~ In (Some IncludeTag.missing) args ->
  IncludeTag.p_ignore (IncludeTag.compile_pieces args) = false.
Proof.
  intros Hn. unfold IncludeTag.compile_pieces.
  assert (Htl : forall y, In y (tl args) -> In y args)
    by (intros y; destruct args; [intros []|right; assumption]).
  destruct (IncludeTag.remove_first IncludeTag.only (tl args)) as [rest|] eqn:E;
    cbn [IncludeTag.p_ignore].
  - destruct (Arr.top (Arr.pop rest)) as [[m|]|] eqn:Et; try reflexivity.
    destruct (String.eqb m IncludeTag.missing) eqn:Em; [|reflexivity].
    apply String.eqb_eq in Em. subst m. exfalso. apply Hn. apply Htl.
    eapply remove_first_In; [exact E|]. apply pop_In. apply top_In. exact Et.
  - destruct (Arr.top (Arr.pop (tl args))) as [[m|]|] eqn:Et; try reflexivity.
    destruct (String.eqb m IncludeTag.missing) eqn:Em; [|reflexivity].
    apply String.eqb_eq in Em. subst m. exfalso. apply Hn. apply Htl.
    apply pop_In. apply top_In. exact Et.
Qed.




(** When the partial renders, its text is appended with or without the
    modifier. *)
Lemma include_success (args : list (option string))
  (call : string -> string -> string -> result string) (r _output : string) :
  (forall x y z, call x y z = Ok r) ->
  IncludeTag.exec call (IncludeTag.compile_stmt args) _output = Ok (_output ^^ r).
Proof.
  intros Hc. unfold IncludeTag.compile_stmt.
  destruct (IncludeTag.p_ignore _); cbn; rewrite Hc; reflexivity.
Qed.









(* ----------------------------------------------------------------- *)
(** ** for: the emitted loop *)

Import ForTag.

Lemma ctx_get_set (c : context) (k k' : string) (v : value) :
  ctx_get (ctx_set c k v) k' = if String.eqb k' k then v else ctx_get c k'.
Proof.
  unfold ctx_get, ctx_set.
  induction c as [|[a b] tl IH]; cbn.
  - destruct (String.eqb k' k); reflexivity.
  - destruct (String.eqb k a) eqn:Eka; cbn.
    + apply String.eqb_eq in Eka. subst a.
      destruct (String.eqb k' k); reflexivity.
    + destruct (String.eqb k' a) eqn:Ek'a.
      * apply String.eqb_eq in Ek'a. subst a.
        rewrite String.eqb_sym in Eka. rewrite Eka. reflexivity.
      * exact IH.
Qed.

Lemma ctx_get_set_other (c : context) (k k' : string) (v : value) :
  k' <> k -> ctx_get (ctx_set c k v) k' = ctx_get c k'.
Proof.
  intros H. rewrite ctx_get_set.
  apply String.eqb_neq in H. rewrite H. reflexivity.
Qed.

Lemma ctx_get_set_same (c : context) (k : string) (v : value) :
  ctx_get (ctx_set c k v) k = v.
Proof. rewrite ctx_get_set, String.eqb_refl. reflexivity. Qed.

(** Reading a field of an object value is reading its property list. *)
Lemma get_prop_obj (fs : list (string * value)) (k : string) :
  get_prop (VObj fs) k = Ok (ctx_get fs k).
Proof. reflexivity. Qed.

Lemma plain_name_neq (x : string) :
  plain_name x = true -> x <> "loop".
Proof.
  unfold plain_name. intros H Heq. subst x. discriminate H.
Qed.

(** The writes to the fields of [_ctx.loop] touch the [loop] binding only. *)
Lemma set_loop_field_frame (c c' : context) (f : string) (v : value) (k : string) :
  set_loop_field c f v = Ok c' -> k <> "loop" -> ctx_get c' k = ctx_get c k.
Proof.
  unfold set_loop_field. intros H Hk.
  destruct (set_prop (ctx_get c "loop") f v); cbn in H; [|discriminate].
  inversion H; subst. apply ctx_get_set_other. exact Hk.
Qed.

Lemma flag_loop_field_frame (c c' : context) (f g : string) (k : string) :
  flag_loop_field c f g = Ok c' -> k <> "loop" -> ctx_get c' k = ctx_get c k.
Proof.
  unfold flag_loop_field. intros H Hk.
  destruct (get_loop_field c g); cbn in H; [|discriminate].
  destruct (strict_eq a (VNum 0)); cbn in H; [|discriminate].
  eapply set_loop_field_frame; eassumption.
Qed.

Lemma bump_loop_field_frame (c c' : context) (f : string) (d : Z) (k : string) :
  bump_loop_field c f d = Ok c' -> k <> "loop" -> ctx_get c' k = ctx_get c k.
Proof.
  unfold bump_loop_field. intros H Hk.
  destruct (get_loop_field c f); cbn in H; [|discriminate].
  destruct (add_num a d); cbn in H; [|discriminate].
  eapply set_loop_field_frame; eassumption.
Qed.

Lemma iteration_frame {O} (val key : string) (body : body_t O)
  (e : value * value) (c c' : context) (o : list O) (k : string) :
  iteration val key body e c = Ok (c', o) ->
  k <> "loop" -> k <> val -> k <> key -> body_keeps body k ->
  ctx_get c' k = ctx_get c k.
Proof.
  unfold iteration. intros H Hl Hv Hk Hb.
  repeat match type of H with
    | bind ?r _ = Ok _ => destruct r as [?x|] eqn:?E; cbn [bind] in H; [|discriminate]
    end.
  destruct x2 as [cb ob]. cbn in H.
  repeat match type of H with
    | bind ?r _ = Ok _ => destruct r as [?x|] eqn:?E; cbn [bind] in H; [|discriminate]
    end.
  inversion H; subst; clear H.
  rewrite (bump_loop_field_frame _ _ _ _ k E6 Hl).
  rewrite (bump_loop_field_frame _ _ _ _ k E5 Hl).
  rewrite (bump_loop_field_frame _ _ _ _ k E4 Hl).
  rewrite (bump_loop_field_frame _ _ _ _ k E3 Hl).
  rewrite (Hb _ _ _ _ E2).
  rewrite (flag_loop_field_frame _ _ _ _ k E1 Hl).
  rewrite (flag_loop_field_frame _ _ _ _ k E0 Hl).
  rewrite (set_loop_field_frame _ _ _ _ k E Hl).
  rewrite ctx_get_set_other by exact Hk.
  apply ctx_get_set_other. exact Hv.
Qed.

Lemma each_frame {O} (val key : string) (body : body_t O)
  (entries : list (value * value)) (c c' : context) (o : list O) (k : string) :
  each val key body entries c = Ok (c', o) ->
  k <> "loop" -> k <> val -> k <> key -> body_keeps body k ->
  ctx_get c' k = ctx_get c k.
Proof.
  intros H Hl Hv Hk Hb. revert c c' o H.
  induction entries as [|e rest IH]; intros c c' o H; cbn in H.
  - inversion H; subst. reflexivity.
  - destruct (iteration val key body e c) as [[c1 o1]|] eqn:E1; cbn in H; [|discriminate].
    destruct (each val key body rest c1) as [[c2 o2]|] eqn:E2; cbn in H; [|discriminate].
    inversion H; subst.
    rewrite (IH _ _ _ E2).
    eapply iteration_frame; eassumption.
Qed.

(** After the emitted loop, [loop], the value name and the key name read
    what they read before it, whatever the body did; any other name reads
    what it read before when the body keeps it. *)
Lemma render_restores {O} (val key : string) (body : body_t O) (l : value)
  (c c' : context) (o : list O) :
  render val key body l c = Ok (c', o) ->
  ctx_get c' "loop" = ctx_get c "loop"
  /\ ctx_get c' val = ctx_get c val
  /\ ctx_get c' key = ctx_get c key
  /\ forall k, body_keeps body k -> ctx_get c' k = ctx_get c k.
Proof.
  unfold render. intros H.
  destruct (negb (is_identifier val && is_identifier key)); [discriminate|].
  destruct (plain_name val && plain_name key) eqn:Hplain; cbn [negb] in H;
    [|discriminate].
  apply andb_prop in Hplain. destruct Hplain as [Hpv Hpk].
  apply plain_name_neq in Hpv. apply plain_name_neq in Hpk.
  destruct (negb (truthy l)).
  { inversion H; subst. repeat split; reflexivity. }
  destruct (each_entries l) as [entries|]; cbn [bind] in H; [|discriminate].
  destruct (each val key body entries _) as [[c2 o2]|] eqn:E; cbn [bind] in H;
    [|discriminate].
  rewrite !get_prop_obj in H. cbn [bind] in H.
  change (assoc_set key (ctx_get c key)
            (assoc_set val (ctx_get c val) [("loop", ctx_get c "loop")]))
    with (ctx_set (ctx_set [("loop", ctx_get c "loop")] val (ctx_get c val))
            key (ctx_get c key)) in H.
  remember (ctx_set (ctx_set [("loop", ctx_get c "loop")] val (ctx_get c val))
              key (ctx_get c key)) as cache eqn:Hcache.
  injection H as Hc Ho. subst c' o2. subst cache.
  assert (Hloop : ctx_get (ctx_set (ctx_set [("loop", ctx_get c "loop")] val
                                      (ctx_get c val)) key (ctx_get c key)) "loop"
                  = ctx_get c "loop").
  { rewrite !ctx_get_set_other by (intros Heq; symmetry in Heq; contradiction).
    reflexivity. }
  assert (Hval : ctx_get (ctx_set (ctx_set [("loop", ctx_get c "loop")] val
                                     (ctx_get c val)) key (ctx_get c key)) val
                 = ctx_get c val).
  { rewrite ctx_get_set. destruct (String.eqb val key) eqn:Evk.
    - apply String.eqb_eq in Evk. subst key. reflexivity.
    - apply ctx_get_set_same. }
  assert (Hkey : ctx_get (ctx_set (ctx_set [("loop", ctx_get c "loop")] val
                                     (ctx_get c val)) key (ctx_get c key)) key
                 = ctx_get c key) by apply ctx_get_set_same.
  rewrite Hloop, Hval, Hkey.
  assert (Hk : forall k,
             ctx_get (ctx_set (ctx_set (ctx_set c2 "loop" (ctx_get c "loop")) val
                                 (ctx_get c val)) key (ctx_get c key)) k
             = if String.eqb k key then ctx_get c key
               else if String.eqb k val then ctx_get c val
               else if String.eqb k "loop" then ctx_get c "loop"
               else ctx_get c2 k).
  { intros k. rewrite !ctx_get_set. reflexivity. }
  split; [|split; [|split]].
  - rewrite Hk.
    apply String.eqb_neq in Hpv, Hpk. rewrite String.eqb_sym in Hpv, Hpk.
    rewrite Hpk, Hpv. reflexivity.
  - rewrite Hk, String.eqb_refl.
    destruct (String.eqb val key) eqn:Evk; [|reflexivity].
    apply String.eqb_eq in Evk. subst key. reflexivity.
  - rewrite Hk, String.eqb_refl. reflexivity.
  - intros k Hb. rewrite Hk.
    destruct (String.eqb k key) eqn:Ekk;
      [apply String.eqb_eq in Ekk; subst k; reflexivity|].
    destruct (String.eqb k val) eqn:Ekv;
      [apply String.eqb_eq in Ekv; subst k; reflexivity|].
    destruct (String.eqb k "loop") eqn:Ekl;
      [apply String.eqb_eq in Ekl; subst k; reflexivity|].
    apply String.eqb_neq in Ekk, Ekv, Ekl.
    rewrite (each_frame _ _ _ _ _ _ _ k E Ekl Ekv Ekk Hb).
    apply ctx_get_set_other. exact Ekl.
Qed.

(** C7.  A loop whose content is outputs and loops nested to any depth,
    under any value and key names, the names of an enclosing loop among
    them: once the loop has completed, every name of the context, [loop]
    and the value and key names included, reads what it read right before
    the loop. *)
Theorem nested_loops_restore_bindings (n : node) (sc : JsExpr.scope)
  (c c' : context) (o : list string) :
  run_node n sc c = Ok (c', o) ->
  forall k, ctx_get c' k = ctx_get c k.
Proof.
  revert sc c c' o.
  induction n as [f|val key iter content IH] using node_nested_ind;
    intros sc c c' o H k.
  - cbn in H. destruct (f sc c); cbn in H; [|discriminate].
    inversion H; subst. reflexivity.
  - cbn [run_node] in H.
    destruct (iter sc c) as [l|]; cbn [bind] in H; [|discriminate].
    apply render_restores in H. destruct H as (_ & _ & _ & Hrest).
    apply Hrest. clear Hrest c c' o.
    intros params c1 c2 o. revert c1 c2 o.
    induction IH as [|n' rest Hn' _ IHrest]; intros c1 c2 o H.
    + inversion H; subst. reflexivity.
    + destruct (run_node n' (params ++ sc) c1) as [[ca oa]|] eqn:Ea;
        cbn [bind] in H; [|discriminate].
      match type of H with
      | bind ?r _ = _ => destruct r as [[cb ob]|] eqn:Eb; cbn [bind] in H;
                         [|discriminate]
      end.
      inversion H; subst.
      rewrite (IHrest _ _ _ Eb).
      exact (Hn' _ _ _ _ Ea k).
Qed.

Lemma nested_loops_restore_bindings_witness :
  run_node nested_example [] nested_context
  = Ok ([("items", VArr [VArr [VStr "a"; VStr "b"]; VArr [VStr "c"]]);
         ("x", VStr "outer"); ("loop", VUndef); ("__k", VUndef)],
        ["a"; "b"; "1"; "0"; "c"; "2"; "1"])
  /\ forall k,
       ctx_get [("items", VArr [VArr [VStr "a"; VStr "b"]; VArr [VStr "c"]]);
                ("x", VStr "outer"); ("loop", VUndef); ("__k", VUndef)] k
       = ctx_get nested_context k.
Proof.
  assert (H : run_node nested_example [] nested_context
              = Ok ([("items", VArr [VArr [VStr "a"; VStr "b"]; VArr [VStr "c"]]);
                     ("x", VStr "outer"); ("loop", VUndef); ("__k", VUndef)],
                    ["a"; "b"; "1"; "0"; "c"; "2"; "1"]))
    by (vm_compute; reflexivity).
  split; [exact H|].
  exact (nested_loops_restore_bindings nested_example [] nested_context _ _ H).
Defined.





(* ----------------------------------------------------------------- *)
(** ** for: the metadata of every run *)







(* ----------------------------------------------------------------- *)
(** ** The emitted loop around a body that reads the context *)








(* ----------------------------------------------------------------- *)
(** ** escapeRegExp *)

(** X10.  [escapeRegExp] escapes one character at most: a text without
    special characters comes back as it is, and in a text that holds some,
    the first gets its backslash while everything after it is left as it
    was, special characters included. *)
Theorem escapeRegExp_escapes_first_only (a : string) :
  no_special a = true ->
  escapeRegExp a = a
  /\ forall (c : ascii) (b : string),
       regexp_special c = true ->
       escapeRegExp (a ^^ String c b) = a ^^ String "\" (String c b).
Proof.
  unfold no_special.
  induction a as [|x a IH]; cbn [list_ascii_of_string forallb]; intros H.
  - split; [reflexivity|]. intros c b Hc.
    cbn [String.append escapeRegExp]. rewrite Hc. reflexivity.
  - apply andb_prop in H. destruct H as [Hx Ha].
    apply negb_true_iff in Hx. destruct (IH Ha) as [IH1 IH2].
    split.
    + cbn [escapeRegExp]. rewrite Hx, IH1. reflexivity.
    + intros c b Hc. cbn [String.append escapeRegExp]. rewrite Hx, (IH2 c b Hc).
      reflexivity.
Qed.

Lemma escapeRegExp_escapes_first_only_witness :
  escapeRegExp "<%" = "<%"
  /\ forall (c : ascii) (b : string),
       regexp_special c = true ->
       escapeRegExp ("<%" ^^ String c b) = "<%" ^^ String "\" (String c b).
Proof.
  exact (escapeRegExp_escapes_first_only "<%" eq_refl).
Defined.

(* ----------------------------------------------------------------- *)
(** ** parseTag: raw mode and end tags *)

(** The first word of a tag text ends at the first white space, whichever
    it is: a vertical tab, a form feed and a no-break space end it as a
    blank does. *)
Lemma first_word_stops_at_white_space (a b : string) (n : nat) :
  In n [9; 10; 11; 12; 13; 32; 160] ->
  forallb (fun c => negb (is_space c)) (list_ascii_of_string a) = true ->
  first_word (a ^^ String (ascii_of_nat n) b) = a.
Proof.
  intros Hn. induction a as [|c a IH]; cbn [list_ascii_of_string forallb]; intros H.
  - cbn [String.append first_word].
    repeat (destruct Hn as [Hn|Hn]; [subst n; reflexivity|]). destruct Hn.
  - apply andb_prop in H. destruct H as [Hc Ha]. apply negb_true_iff in Hc.
    cbn [String.append first_word]. rewrite Hc, (IH Ha). reflexivity.
Qed.

(** X11.  Inside a raw block [parseTag] parses nothing: whatever the text,
    the tag table and the tokens, it raises nothing and returns no token; it
    leaves its variables as they are, or pops the stack when the text closes
    the block on top of it. *)
Theorem raw_mode_parses_no_tag (type_key : toktype -> string) (tags : TagTable)
  (opts : SwigOptions) (fs : Filters) (e : env) (str n : string) (c1 : arg)
  (toks : list LexerToken) (line : nat) :
  inRaw e = true ->
  exists e',
    parseTag type_key tags opts fs e str n c1 toks line = Ok (e', None)
    /\ (e' = e
        \/ (stack e' = Arr.pop (stack e)
            /\ Str.starts_with "end" str = true
            /\ exists last, Arr.top (stack e) = Some last
                            /\ name last = strip_end (first_word str)
                            /\ ends last = true)).
Proof.
  intros Hraw. unfold parseTag. rewrite Hraw.
  destruct (Str.starts_with "end" str) eqn:Hend; cbn [andb negb].
  - destruct (Arr.top (stack e)) as [last|] eqn:Htop.
    + destruct (String.eqb (name last) (strip_end (first_word str)) && ends last)
        eqn:Hc.
      * apply andb_prop in Hc. destruct Hc as [Hn He].
        apply String.eqb_eq in Hn.
        eexists. split; [reflexivity|]. right.
        split; [|split; [reflexivity|exists last; repeat split; assumption]].
        destruct (String.eqb (name last) "autoescape"); [reflexivity|].
        destruct (String.eqb (name last) "raw"); reflexivity.
      * exists e. split; [reflexivity|left; reflexivity].
    + exists e. split; [reflexivity|left; reflexivity].
  - exists e. split; [reflexivity|left; reflexivity].
Qed.

Lemma raw_mode_parses_no_tag_witness :
  exists e',
    parseTag example_keys (builtin_tags example_keys) (mkOptions (VBool true) None) []
      (mkEnv (VBool true) [mkTagToken false (Some []) true "raw"] true)
      "for x in" "for" (AStr "x in")
      [Tok VAR "x"; Tok WHITESAPCE " "; Tok COMPARATOR "in"] 1
    = Ok (e', None)
    /\ (e' = mkEnv (VBool true) [mkTagToken false (Some []) true "raw"] true
        \/ (stack e' = Arr.pop [mkTagToken false (Some []) true "raw"]
            /\ Str.starts_with "end" "for x in" = true
            /\ exists last, Arr.top [mkTagToken false (Some []) true "raw"] = Some last
                            /\ name last = strip_end (first_word "for x in")
                            /\ ends last = true)).
Proof.
  exact (raw_mode_parses_no_tag example_keys (builtin_tags example_keys)
           (mkOptions (VBool true) None) []
           (mkEnv (VBool true) [mkTagToken false (Some []) true "raw"] true)
           "for x in" "for" (AStr "x in")
           [Tok VAR "x"; Tok WHITESAPCE " "; Tok COMPARATOR "in"] 1 eq_refl).
Defined.

(** X12.  Outside a raw block a text that starts with [end] never opens a
    tag, whatever the tag table holds under its name: [parseTag] pops the
    block on top of the stack and returns nothing when the text closes that
    block (and the block takes an end tag), and raises the error of an
    unexpected end tag otherwise. *)
Theorem end_text_never_opens_a_tag (type_key : toktype -> string) (tags : TagTable)
  (opts : SwigOptions) (fs : Filters) (e : env) (str n : string) (c1 : arg) (toks : list LexerToken)
  (line : nat) :
  inRaw e = false ->
  Str.starts_with "end" str = true ->
  (exists e', parseTag type_key tags opts fs e str n c1 toks line = Ok (e', None)
              /\ stack e' = Arr.pop (stack e)
              /\ exists last, Arr.top (stack e) = Some last
                              /\ name last = strip_end (first_word str)
                              /\ ends last = true)
  \/ parseTag type_key tags opts fs e str n c1 toks line
     = Throw (SwigError ("Unexpected end of tag " ^^ strip_end str) line
                (opt_filename opts)).
Proof.
  intros Hraw Hend. unfold parseTag. rewrite Hraw, Hend. cbn [andb negb].
  destruct (Arr.top (stack e)) as [last|] eqn:Htop; [|right; reflexivity].
  destruct (String.eqb (name last) (strip_end (first_word str)) && ends last)
    eqn:Hc; [|right; reflexivity].
  apply andb_prop in Hc. destruct Hc as [Hn He]. apply String.eqb_eq in Hn.
  left. eexists. split; [reflexivity|].
  split; [|exists last; repeat split; assumption].
  destruct (String.eqb (name last) "autoescape"); [reflexivity|].
  destruct (String.eqb (name last) "raw"); reflexivity.
Qed.

Lemma end_text_never_opens_a_tag_witness :
  let e := mkEnv (VBool true) [mkTagToken false (Some []) true "for"] false in
  (exists e', parseTag example_keys [("endless", ForTag.tag example_keys)]
                (mkOptions (VBool true) None) [] e
                "endless x in y" "endless" (AStr "x in y") [] 3 = Ok (e', None)
              /\ stack e' = Arr.pop (stack e)
              /\ exists last, Arr.top (stack e) = Some last
                              /\ name last = strip_end (first_word "endless x in y")
                              /\ ends last = true)
  \/ parseTag example_keys [("endless", ForTag.tag example_keys)] (mkOptions (VBool true) None) [] e
       "endless x in y" "endless" (AStr "x in y") [] 3
     = Throw (SwigError ("Unexpected end of tag " ^^ strip_end "endless x in y") 3 None).
Proof.
  exact (end_text_never_opens_a_tag example_keys [("endless", ForTag.tag example_keys)]
           (mkOptions (VBool true) None) []
           (mkEnv (VBool true) [mkTagToken false (Some []) true "for"] false)
           "endless x in y" "endless" (AStr "x in y") [] 3 eq_refl eq_refl).
Defined.

(* ----------------------------------------------------------------- *)
(** ** The end of an autoescape block *)

(** X15.  Closing an autoescape block puts the escape setting back to the
    option the template was compiled with, not to what it was when the block
    was opened: after the end of a block nested in another autoescape block
    the setting of the outer block is lost.  The stack loses its top and the
    raw mark stays. *)
Theorem endautoescape_resets_to_option (type_key : toktype -> string)
  (tags : TagTable) (opts : SwigOptions) (fs : Filters) (e : env) (last : TagToken)
  (n : string) (c1 : arg)
  (toks : list LexerToken) (line : nat) :
  Arr.top (stack e) = Some last ->
  name last = "autoescape" ->
  ends last = true ->
  parseTag type_key tags opts fs e "endautoescape" n c1 toks line
  = Ok (mkEnv (opt_autoescape opts) (Arr.pop (stack e)) (inRaw e), None).
Proof.
  intros Htop Hname Hends. unfold parseTag.
  change (Str.starts_with "end" "endautoescape") with true.
  change (strip_end (first_word "endautoescape")) with "autoescape".
  rewrite Htop, Hname, Hends. reflexivity.
Qed.

Lemma endautoescape_resets_to_option_witness :
  let inner := mkTagToken false (Some [Some "true"]) true "autoescape" in
  let outer := mkTagToken false (Some [Some "false"]) true "autoescape" in
  parseTag example_keys [] (mkOptions (VBool true) None) []
    (mkEnv (VStr "true") [outer; inner] false) "endautoescape" "endautoescape"
    AUndef [] 4
  = Ok (mkEnv (VBool true) (Arr.pop [outer; inner]) false, None).
Proof.
  exact (endautoescape_resets_to_option example_keys [] (mkOptions (VBool true) None) []
           (mkEnv (VStr "true")
              [mkTagToken false (Some [Some "false"]) true "autoescape";
               mkTagToken false (Some [Some "true"]) true "autoescape"] false)
           (mkTagToken false (Some [Some "true"]) true "autoescape") "endautoescape"
           AUndef [] 4 eq_refl eq_refl eq_refl).
Defined.
